(** * The flow service of the workflow platform: create, read, list, update,
      delete and count over flow records, their versions and their instances.

    The service (flow.service.ts) orchestrates four collaborators: the flow
    repository, the flow-version service, the flow-instance service and the
    lock service.  The embedding keeps the service's own code as it is written
    and runs it over an explicit world: the three tables, the lock table and
    the log of collaborator calls. *)

From stdpp Require Import gmap strings list fin_maps.
From Stdlib Require Import ZArith.

Local Open Scope Z_scope.
Local Open Scope string_scope.
Local Open Scope list_scope.

(** ** Data model *)

Definition ProjectId := string.
Definition FlowId := string.
Definition FlowVersionId := string.
Definition FolderId := string.

(** [TriggerType]: the service names [TriggerType.EMPTY] only; the other kinds
    of the shared package are kept apart by their tag. *)
Inductive TriggerType :=
| EMPTY
| OtherTrigger (tag : string).

(** [FlowVersionState]: a version is mutable until it is [LOCKED]. *)
Inductive FlowVersionState :=
| DRAFT
| LOCKED.

(** [FlowInstanceStatus]: the service names [UNPUBLISHED] only. *)
Inductive FlowInstanceStatus :=
| UNPUBLISHED
| OtherStatus (tag : string).

Record Trigger := {
  trigger_displayName : string;
  trigger_name : string;
  trigger_type : TriggerType;
  trigger_settings : list (string * string);
  trigger_valid : bool;
}.

(** What [createVersion] is given: the content of a version. *)
Record FlowVersionTemplate := {
  tpl_displayName : string;
  tpl_valid : bool;
  tpl_trigger : Trigger;
}.

Record FlowVersion := {
  fv_id : FlowVersionId;
  fv_flowId : FlowId;
  fv_displayName : string;
  fv_trigger : Trigger;
  fv_valid : bool;
  fv_state : FlowVersionState;
}.

(** A full version used where a template is expected (structural typing). *)
Definition template_of (v : FlowVersion) : FlowVersionTemplate :=
  {| tpl_displayName := fv_displayName v;
     tpl_valid := fv_valid v;
     tpl_trigger := fv_trigger v |}.

(** The flow entity, as the repository reads and writes it. *)
Record FlowRecord := {
  rec_id : FlowId;
  rec_projectId : ProjectId;
  rec_folderId : option FolderId;
}.

(** The columns of the flow table besides the primary key [id]. *)
Record FlowRow := {
  row_projectId : ProjectId;
  row_folderId : option FolderId;
}.

Definition record (id : FlowId) (row : FlowRow) : FlowRecord :=
  {| rec_id := id; rec_projectId := row_projectId row; rec_folderId := row_folderId row |}.

Definition row_of (r : FlowRecord) : FlowRow :=
  {| row_projectId := rec_projectId r; row_folderId := rec_folderId r |}.

Record FlowInstance := {
  inst_projectId : ProjectId;
  inst_flowId : FlowId;
  inst_status : FlowInstanceStatus;
}.

(** The composed [Flow]: the row spread, the version (the source asserts it
    non-null with [!], which checks nothing at run time) and the status, which
    [create] leaves out. *)
Record Flow := {
  flow_id : FlowId;
  flow_projectId : ProjectId;
  flow_folderId : option FolderId;
  flow_version : option FlowVersion;
  flow_status : option FlowInstanceStatus;
}.

Record CreateFlowRequest := {
  req_displayName : string;
  req_folderId : option FolderId;
}.

Inductive ErrorCode :=
| FLOW_NOT_FOUND (id : FlowId)
| LOCK_TIMEOUT (key : string)
| TYPE_ERROR
| OTHER_ERROR (msg : string).

(** The calls the service makes on its collaborators, in the order made. *)
Inductive Event :=
| EvAcquireLock (key : string) (timeout : Z)
| EvRelease (key : string)
| EvRepoSave (id : FlowId)
| EvRepoFindOneBy (projectId : ProjectId) (id : FlowId)
| EvRepoUpdate (id : FlowId)
| EvRepoDelete (projectId : ProjectId) (id : FlowId)
| EvRepoCount
| EvRepoQuery
| EvCreateVersion (flowId : FlowId) (id : FlowVersionId)
| EvGetFlowVersion (flowId : FlowId)
| EvApplyOperation (id : FlowVersionId)
| EvInstanceGet (projectId : ProjectId) (flowId : FlowId)
| EvOnFlowDelete (projectId : ProjectId) (flowId : FlowId)
| EvTelemetry (projectId : ProjectId) (flowId : FlowId).

#[global] Instance TriggerType_eq_dec : EqDecision TriggerType.
Proof. solve_decision. Defined.
#[global] Instance FlowVersionState_eq_dec : EqDecision FlowVersionState.
Proof. solve_decision. Defined.
#[global] Instance FlowInstanceStatus_eq_dec : EqDecision FlowInstanceStatus.
Proof. solve_decision. Defined.
#[global] Instance ErrorCode_eq_dec : EqDecision ErrorCode.
Proof. solve_decision. Defined.
#[global] Instance Event_eq_dec : EqDecision Event.
Proof. solve_decision. Defined.

(** ** The world the service runs in *)

Record World := {
  flows : gmap FlowId FlowRow;           (* flow table, keyed by primary key *)
  versions : list FlowVersion;           (* version table, newest first *)
  instances : gmap FlowId FlowInstance;  (* instance table, one per flow *)
  locks : gset string;                   (* keys of the locks now held *)
  trace : list Event;                    (* collaborator calls, oldest first *)
}.

Definition set_flows (f : gmap FlowId FlowRow) (w : World) : World :=
  {| flows := f; versions := versions w; instances := instances w;
     locks := locks w; trace := trace w |}.
Definition set_versions (v : list FlowVersion) (w : World) : World :=
  {| flows := flows w; versions := v; instances := instances w;
     locks := locks w; trace := trace w |}.
Definition set_instances (i : gmap FlowId FlowInstance) (w : World) : World :=
  {| flows := flows w; versions := versions w; instances := i;
     locks := locks w; trace := trace w |}.
Definition set_locks (l : gset string) (w : World) : World :=
  {| flows := flows w; versions := versions w; instances := instances w;
     locks := l; trace := trace w |}.
Definition log (e : Event) (w : World) : World :=
  {| flows := flows w; versions := versions w; instances := instances w;
     locks := locks w; trace := trace w ++ [e] |}.

(** ** Promises: a computation over the world that returns or throws *)

Inductive Outcome (A : Type) :=
| Returned (a : A)
| Thrown (e : ErrorCode).
Arguments Returned {A} a.
Arguments Thrown {A} e.

Definition Async (A : Type) : Type := World -> Outcome A * World.

Definition ret {A} (a : A) : Async A := fun w => (Returned a, w).
Definition throw {A} (e : ErrorCode) : Async A := fun w => (Thrown e, w).
Definition bind {A B} (c : Async A) (k : A -> Async B) : Async B :=
  fun w => match c w with
           | (Returned a, w1) => k a w1
           | (Thrown e, w1) => (Thrown e, w1)
           end.

(** [try { body } finally { fin }]: [fin] runs whatever [body] did; the
    outcome is the body's unless [fin] itself throws. *)
Definition try_finally {A} (body : Async A) (fin : Async unit) : Async A :=
  fun w => match body w with
           | (r, w1) => match fin w1 with
                        | (Returned _, w2) => (r, w2)
                        | (Thrown e, w2) => (Thrown e, w2)
                        end
           end.

(** [let! x := c in k] reads [const x = await c; k]; [do! c in k] reads
    [await c; k]. *)
Notation "'let!' x := c 'in' k" := (bind c (fun x => k))
  (at level 10, x name, c at level 100, k at level 200,
   format "'[v' 'let!'  x  :=  c  'in' '/' k ']'").
Notation "'do!' c 'in' k" := (bind c (fun _ => k))
  (at level 10, c at level 100, k at level 200,
   format "'[v' 'do!'  c  'in' '/' k ']'").

(** Outcome and final world of a run. *)
Definition outcome {A} (r : Outcome A * World) : Outcome A := fst r.
Definition final {A} (r : Outcome A * World) : World := snd r.

(** ** Collaborators

    None of the collaborators is part of flow.service.ts; each is modelled on
    the contract the service relies on. *)

(** *** Lock service (database/redis-connection) *)

Record Lock := { lock_key : string }.

(** Modelled from the spec: [acquireLock] is not part of the service file.
    [acquireLock(key, timeoutMs)] yields a handle with [release()] or fails;
    the lock is a mutual-exclusion table keyed by [key].  A key that is held
    when a single request runs is held by some other caller and stays held for
    the whole wait, so the acquisition times out. *)
Definition acquireLock (key : string) (timeout : Z) : Async Lock :=
  fun w =>
    let w1 := log (EvAcquireLock key timeout) w in
    if decide (key ∈ locks w1)
    then (Thrown (LOCK_TIMEOUT key), w1)
    else (Returned {| lock_key := key |}, set_locks ({[key]} ∪ locks w1) w1).

(** Modelled from the spec: [release()] of the handle frees its key. *)
Definition release (l : Lock) : Async unit :=
  fun w =>
    let w1 := log (EvRelease (lock_key l)) w in
    (Returned tt, set_locks (locks w1 ∖ {[lock_key l]}) w1).

(** *** Flow repository (flow.repo): the flow table *)

(** The [where] of a query on the flow table: the project, and for the folder
    either nothing, [IsNull()] or a value to equal. *)
Inductive FolderCriterion :=
| IsNull
| Equal (folderId : FolderId).

Record FlowWhere := {
  where_projectId : ProjectId;
  where_folderId : option FolderCriterion;
}.

Definition matches (q : FlowWhere) (r : FlowRecord) : bool :=
  bool_decide (rec_projectId r = where_projectId q)
  && match where_folderId q with
     | None => true
     | Some IsNull => bool_decide (rec_folderId r = None)
     | Some (Equal f) => bool_decide (rec_folderId r = Some f)
     end.

(** All rows of the flow table. *)
Definition rows (w : World) : list FlowRecord :=
  map (fun kv => record kv.1 kv.2) (map_to_list (flows w)).

(** Modelled from the spec: the repository is not part of the service file.
    [save] inserts the row under its primary key, or overwrites it. *)
Definition repo_save (r : FlowRecord) : Async FlowRecord :=
  fun w =>
    (Returned r, set_flows (<[rec_id r := row_of r]> (flows w)) (log (EvRepoSave (rec_id r)) w)).

(** The row with primary key [id], when it belongs to the project. *)
Definition lookupFlow (w : World) (projectId : ProjectId) (id : FlowId) : option FlowRecord :=
  match flows w !! id with
  | Some row => if decide (row_projectId row = projectId) then Some (record id row) else None
  | None => None
  end.

(** Modelled from the spec: [findOneBy({ projectId, id })]. *)
Definition repo_findOneBy (projectId : ProjectId) (id : FlowId) : Async (option FlowRecord) :=
  fun w => (Returned (lookupFlow w projectId id), log (EvRepoFindOneBy projectId id) w).

(** Modelled from the spec: [update(id, values)] sets the columns of the row
    with that primary key, when there is one, to [values]. *)
Definition repo_update (id : FlowId) (values : FlowRecord) : Async unit :=
  fun w =>
    let w1 := log (EvRepoUpdate id) w in
    match flows w1 !! id with
    | Some _ =>
        (Returned tt,
         set_flows (<[rec_id values := row_of values]> (base.delete id (flows w1))) w1)
    | None => (Returned tt, w1)
    end.

(** Modelled from the spec: [delete({ projectId, id })] removes the matching
    row; versions and the instance of a removed flow go with it (cascade). *)
Definition repo_delete (projectId : ProjectId) (id : FlowId) : Async unit :=
  fun w =>
    let w1 := log (EvRepoDelete projectId id) w in
    match flows w1 !! id with
    | Some row =>
        if decide (row_projectId row = projectId)
        then (Returned tt,
              set_flows (delete id (flows w1))
                (set_versions (filter (fun v => fv_flowId v ≠ id) (versions w1))
                   (set_instances (delete id (instances w1)) w1)))
        else (Returned tt, w1)
    | None => (Returned tt, w1)
    end.

(** The rows a [where] selects. *)
Definition selectRows (w : World) (q : FlowWhere) : list FlowRecord :=
  filter (fun r => matches q r = true) (rows w).

(** Modelled from the spec: [count({ where })]. *)
Definition repo_count (q : FlowWhere) : Async nat :=
  fun w => (Returned (length (selectRows w q)), log EvRepoCount w).

(** Modelled from the spec: [createQueryBuilder('flow').where(queryWhere)],
    the rows the paginator is given. *)
Definition repo_query (q : FlowWhere) : Async (list FlowRecord) :=
  fun w => (Returned (selectRows w q), log EvRepoQuery w).

(** *** Flow-instance service *)

(** The instance of the flow, when it belongs to the project. *)
Definition lookupInstance (w : World) (projectId : ProjectId) (flowId : FlowId)
  : option FlowInstance :=
  match instances w !! flowId with
  | Some i => if decide (inst_projectId i = projectId) then Some i else None
  | None => None
  end.

(** Modelled from the spec: [get({ projectId, flowId })] yields the instance
    of the flow, or null. *)
Definition instance_get (projectId : ProjectId) (flowId : FlowId) : Async (option FlowInstance) :=
  fun w => (Returned (lookupInstance w projectId flowId), log (EvInstanceGet projectId flowId) w).

(** Modelled from the spec: [onFlowDelete({ projectId, flowId })], the
    instance-level cleanup: the instance of the flow is removed. *)
Definition onFlowDelete (projectId : ProjectId) (flowId : FlowId) : Async unit :=
  fun w =>
    let w1 := log (EvOnFlowDelete projectId flowId) w in
    match instances w1 !! flowId with
    | Some i =>
        if decide (inst_projectId i = projectId)
        then (Returned tt, set_instances (delete flowId (instances w1)) w1)
        else (Returned tt, w1)
    | None => (Returned tt, w1)
    end.

(** *** Telemetry: fire and forget *)

Definition trackProject (projectId : ProjectId) (flowId : FlowId) : Async unit :=
  fun w => (Returned tt, log (EvTelemetry projectId flowId) w).

(** *** Flow-version service: reading *)

(** The newest version of the flow, among those with identity [versionId]
    when one is asked for. *)
Definition lookupVersion (w : World) (flowId : FlowId) (versionId : option FlowVersionId)
  : option FlowVersion :=
  List.find (fun v => bool_decide (fv_flowId v = flowId)
                      && match versionId with
                         | None => true
                         | Some i => bool_decide (fv_id v = i)
                         end) (versions w).

(** Modelled from the spec: [getFlowVersion(projectId, flowId, versionId?,
    includeArtifacts)] resolves the version asked for, or the latest one of
    the flow; null when there is none. *)
Definition getFlowVersion (projectId : ProjectId) (flowId : FlowId)
    (versionId : option FlowVersionId) (includeArtifacts : bool) : Async (option FlowVersion) :=
  fun w => (Returned (lookupVersion w flowId versionId), log (EvGetFlowVersion flowId) w).

(** Every identity in use. *)
Definition usedIds (w : World) : list string :=
  map fv_id (versions w) ++ elements (dom (flows w)).

(** A page of a seek-paginated listing. *)
Record SeekPage (T : Type) := {
  data : list T;
  next : option string;
  previous : option string;
}.
Arguments data {T} _.
Arguments next {T} _.
Arguments previous {T} _.

(** The request of [update]: a folder reassignment, or an operation on the
    current version (any other [FlowOperationType]). *)
Inductive FlowOperationRequest (Operation : Type) :=
| CHANGE_FOLDER (folderId : option FolderId)
| VersionOperation (op : Operation).
Arguments CHANGE_FOLDER {Operation} folderId.
Arguments VersionOperation {Operation} op.

(** [forEach f l]: the calls [f x], made in the order of [l], and their
    results. *)
Fixpoint forEach {A B} (f : A -> Async B) (l : list A) : Async (list B) :=
  match l with
  | [] => ret []
  | x :: t => let! y := f x in
              let! ys := forEach f t in
              ret (y :: ys)
  end.

Module flowService.
Section Service.

(** What the imported helpers compute is left open:
    - [apId()], the generator of identities;
    - the operations on a version and their effect on its content
      ([flowVersionService.applyOperation] saves that effect), which may
      throw;
    - [decodeCursor], [buildPaginator], [paginate] and the cursors of
      [createPage] taken together: the page cut from the selected rows. *)
Variable apId : list string -> string.
Variable Operation : Type.
Variable operate : Operation -> FlowVersion -> Outcome FlowVersionTemplate.
Variable paginate : Z -> option string -> list FlowRecord -> SeekPage FlowRecord.

(** *** Flow-version service: writing *)

(** Modelled from the spec: [createVersion(flowId, content)] is not part of
    the service file.  It stores a new mutable version of the flow, with an
    identity of its own and the content given, and returns it. *)
Definition createVersion (flowId : FlowId) (request : FlowVersionTemplate) : Async FlowVersion :=
  fun w =>
    let v := {| fv_id := apId (usedIds w);
                fv_flowId := flowId;
                fv_displayName := tpl_displayName request;
                fv_trigger := tpl_trigger request;
                fv_valid := tpl_valid request;
                fv_state := DRAFT |} in
    (Returned v, set_versions (v :: versions w) (log (EvCreateVersion flowId (fv_id v)) w)).

(** The version [v] with the content [t]. *)
Definition with_content (v : FlowVersion) (t : FlowVersionTemplate) : FlowVersion :=
  {| fv_id := fv_id v;
     fv_flowId := fv_flowId v;
     fv_displayName := tpl_displayName t;
     fv_trigger := tpl_trigger t;
     fv_valid := tpl_valid t;
     fv_state := fv_state v |}.

(** Modelled from the spec: [applyOperation(projectId, version,
    operationRequest)] is not part of the service file.  It computes the
    effect of the operation on the version it is given and stores it under
    that version's identity; a failing operation stores nothing. *)
Definition applyOperation (projectId : ProjectId) (version : FlowVersion) (op : Operation)
  : Async FlowVersion :=
  fun w =>
    let w1 := log (EvApplyOperation (fv_id version)) w in
    match operate op version with
    | Returned t =>
        let v' := with_content version t in
        (Returned v',
         set_versions
           (map (fun x => if decide (fv_id x = fv_id version) then v' else x) (versions w1))
           w1)
    | Thrown e => (Thrown e, w1)
    end.

(** *** The service (flow.service.ts) *)

Definition emptyTrigger : Trigger :=
  {| trigger_displayName := "Select Trigger";
     trigger_name := "trigger";
     trigger_type := EMPTY;
     trigger_settings := [];
     trigger_valid := false |}.

Definition create (projectId : ProjectId) (request : CreateFlowRequest) : Async Flow :=
  fun w =>
    let flow := {| rec_id := apId (usedIds w);
                   rec_projectId := projectId;
                   rec_folderId := req_folderId request |} in
    (let! savedFlow := repo_save flow in
     do! createVersion (rec_id savedFlow)
           {| tpl_displayName := req_displayName request;
              tpl_valid := false;
              tpl_trigger := emptyTrigger |} in
     let! latestFlowVersion := getFlowVersion projectId (rec_id savedFlow) None false in
     do! trackProject (rec_projectId savedFlow) (rec_id flow) in
     ret {| flow_id := rec_id savedFlow;
            flow_projectId := rec_projectId savedFlow;
            flow_folderId := rec_folderId savedFlow;
            flow_version := latestFlowVersion;
            flow_status := None |}) w.

Definition getOne (projectId : ProjectId) (id : FlowId)
    (versionId : option FlowVersionId) (includeArtifacts : bool) : Async (option Flow) :=
  let! flow := repo_findOneBy projectId id in
  match flow with
  | None => ret None
  | Some flow =>
      let! flowVersion := getFlowVersion projectId id versionId includeArtifacts in
      let! instance := instance_get projectId (rec_id flow) in
      ret (Some {| flow_id := rec_id flow;
                   flow_projectId := rec_projectId flow;
                   flow_folderId := rec_folderId flow;
                   flow_version := flowVersion;
                   flow_status := Some (match instance with
                                        | Some i => inst_status i
                                        | None => UNPUBLISHED
                                        end) |})
  end.

Definition getOneOrThrow (projectId : ProjectId) (id : FlowId) : Async Flow :=
  let! flow := getOne projectId id None false in
  match flow with
  | None => throw (FLOW_NOT_FOUND id)
  | Some flow => ret flow
  end.

(** [queryWhere] of [list]. *)
Definition queryWhere (projectId : ProjectId) (folderId : option string) : FlowWhere :=
  {| where_projectId := projectId;
     where_folderId :=
       match folderId with
       | None => None
       | Some f => Some (if decide (f = "NULL") then IsNull else Equal f)
       end |}.

(** The [map] callback of [list]. *)
Definition formatFlow (flow : FlowRecord)
    (version : option FlowVersion) (instance : option FlowInstance) : Flow :=
  let status := match instance with
                | Some i => inst_status i
                | None => UNPUBLISHED
                end in
  {| flow_id := rec_id flow;
     flow_projectId := rec_projectId flow;
     flow_folderId := rec_folderId flow;
     flow_version := version;
     flow_status := Some status |}.

Definition list (projectId : ProjectId) (cursorRequest : option string) (limit : Z)
    (folderId : option string) : Async (SeekPage Flow) :=
  let! selected := repo_query (queryWhere projectId folderId) in
  let paginationResult := paginate limit cursorRequest selected in
  let! fetched := forEach (fun flow =>
                    let! version := getFlowVersion projectId (rec_id flow) None false in
                    let! instance := instance_get projectId (rec_id flow) in
                    ret (version, instance)) (data paginationResult) in
  let formattedFlows :=
    zip_with (fun flow vi => formatFlow flow (fst vi) (snd vi))
      (data paginationResult) fetched in
  ret {| data := formattedFlows;
         next := next paginationResult;
         previous := previous paginationResult |}.

Definition update (projectId : ProjectId) (flowId : FlowId)
    (request : FlowOperationRequest Operation) : Async (option Flow) :=
  let! flowLock := acquireLock flowId 5000 in
  let! flow := repo_findOneBy projectId flowId in
  match flow with
  | None => throw (FLOW_NOT_FOUND flowId)
  | Some flow =>
      do! try_finally
            (match request with
             | CHANGE_FOLDER folderId =>
                 repo_update (rec_id flow)
                   {| rec_id := rec_id flow;
                      rec_projectId := rec_projectId flow;
                      rec_folderId := folderId |}
             | VersionOperation op =>
                 let! lastVersion := getFlowVersion projectId flowId None false in
                 match lastVersion with
                 | None => throw TYPE_ERROR
                 | Some lastVersion =>
                     let! lastVersion :=
                       match fv_state lastVersion with
                       | LOCKED => createVersion flowId (template_of lastVersion)
                       | DRAFT => ret lastVersion
                       end in
                     do! applyOperation projectId lastVersion op in
                     ret tt
                 end
             end)
            (release flowLock) in
      getOne projectId flowId None false
  end.

Definition delete (projectId : ProjectId) (flowId : FlowId) : Async unit :=
  do! onFlowDelete projectId flowId in
  repo_delete projectId flowId.

Definition count (projectId : string) (folderId : option string) : Async nat :=
  match folderId with
  | None => repo_count {| where_projectId := projectId; where_folderId := None |}
  | Some f =>
      if decide (f ≠ "NULL")
      then repo_count {| where_projectId := projectId; where_folderId := Some (Equal f) |}
      else repo_count {| where_projectId := projectId; where_folderId := Some IsNull |}
  end.

End Service.
End flowService.

Arguments flowService.applyOperation {Operation} operate projectId version op _.
Arguments flowService.update apId {Operation} operate projectId flowId request _.

(** The [Flow] that [list] composes from a row: the row, the latest version
    of the flow and the status of its instance. *)
Definition composed (w : World) (projectId : ProjectId) (r : FlowRecord) : Flow :=
  flowService.formatFlow r
    (lookupVersion w (rec_id r) None)
    (lookupInstance w projectId (rec_id r)).

(** The status a read composes onto the flow [flowId]. *)
Definition statusOf (w : World) (projectId : ProjectId) (flowId : FlowId) : FlowInstanceStatus :=
  match lookupInstance w projectId flowId with
  | Some i => inst_status i
  | None => UNPUBLISHED
  end.

(** Two worlds with the same tables and the same locks: they differ by the
    log of calls at most. *)
Definition same_stores (w w' : World) : Prop :=
  flows w' = flows w /\ versions w' = versions w
  /\ instances w' = instances w /\ locks w' = locks w.

(** A computation that only adds calls to the log. *)
Definition extends_trace {A} (c : Async A) : Prop :=
  forall w, exists rest, trace (final (c w)) = trace w ++ rest.

(** The world once the handle of [key] is released. *)
Definition released (key : string) (w : World) : World :=
  final (release {| lock_key := key |} w).

(** The [try] block of [update], for the flow record [flow] it has loaded
    ([update_after_lock] below shows that [update] is made of these parts). *)
Definition update_try (apId : list string -> string) {Operation : Type}
    (operate : Operation -> FlowVersion -> Outcome FlowVersionTemplate)
    (projectId : ProjectId) (flowId : FlowId) (request : FlowOperationRequest Operation)
    (flow : FlowRecord) : Async unit :=
  match request with
  | CHANGE_FOLDER folderId =>
      repo_update (rec_id flow)
        {| rec_id := rec_id flow;
           rec_projectId := rec_projectId flow;
           rec_folderId := folderId |}
  | VersionOperation op =>
      let! lastVersion := getFlowVersion projectId flowId None false in
      match lastVersion with
      | None => throw TYPE_ERROR
      | Some lastVersion =>
          let! lastVersion :=
            match fv_state lastVersion with
            | LOCKED => flowService.createVersion apId flowId (template_of lastVersion)
            | DRAFT => ret lastVersion
            end in
          do! flowService.applyOperation operate projectId lastVersion op in
          ret tt
      end
  end.

(** What [update] does once it holds the lock [flowLock]: the part of its
    body after [acquireLock]. *)
Definition update_holding (apId : list string -> string) {Operation : Type}
    (operate : Operation -> FlowVersion -> Outcome FlowVersionTemplate)
    (projectId : ProjectId) (flowId : FlowId) (request : FlowOperationRequest Operation)
    (flowLock : Lock) : Async (option Flow) :=
  let! flow := repo_findOneBy projectId flowId in
  match flow with
  | None => throw (FLOW_NOT_FOUND flowId)
  | Some flow =>
      do! try_finally
            (update_try apId operate projectId flowId request flow)
            (release flowLock) in
      flowService.getOne projectId flowId None false
  end.

(** The world in which the [try] block of [update] starts: the lock of the
    flow taken and the flow record looked up. *)
Definition loaded (projectId : ProjectId) (flowId : FlowId) (w : World) : World :=
  log (EvRepoFindOneBy projectId flowId)
    (set_locks ({[flowId]} ∪ locks w) (log (EvAcquireLock flowId 5000) w)).

(** The version [createVersion] stores when [update] forks the version [v]
    of the flow [flowId] in the world [w]. *)
Definition forked (apId : list string -> string) (w : World) (flowId : FlowId)
    (v : FlowVersion) : FlowVersion :=
  {| fv_id := apId (usedIds w);
     fv_flowId := flowId;
     fv_displayName := fv_displayName v;
     fv_trigger := fv_trigger v;
     fv_valid := fv_valid v;
     fv_state := DRAFT |}.

(** The version [v] once [applyOperation] has run on it: with the content the
    operation computes, or as it was when the operation throws. *)
Definition applied {Operation : Type}
    (operate : Operation -> FlowVersion -> Outcome FlowVersionTemplate)
    (op : Operation) (v : FlowVersion) : FlowVersion :=
  match operate op v with
  | Returned t => flowService.with_content v t
  | Thrown _ => v
  end.

(** The flows of the project that have no folder. *)
Definition unfiled (w : World) (projectId : ProjectId) : list FlowRecord :=
  filter (fun r => rec_projectId r = projectId /\ rec_folderId r = None) (rows w).

(** The calls on the lock service. *)
Definition is_lock_event (e : Event) : bool :=
  match e with
  | EvAcquireLock _ _ | EvRelease _ => true
  | _ => false
  end.

(** The calls [list] makes to compose the rows [l]: for each row, in order,
    the version and then the instance of its flow. *)
Definition fetch_calls (projectId : ProjectId) (l : list FlowRecord) : list Event :=
  flat_map (fun r => [EvGetFlowVersion (rec_id r); EvInstanceGet projectId (rec_id r)]) l.

(** The calls of the [getOne] that ends a successful [update]. *)
Definition read_back (projectId : ProjectId) (flowId : FlowId) : list Event :=
  [EvRepoFindOneBy projectId flowId; EvGetFlowVersion flowId; EvInstanceGet projectId flowId].

(** What a folder filter of [list] and [count] accepts: every folder when it
    is left out, no folder for the sentinel, and otherwise the folder named. *)
Definition accepts (filter : option string) (folder : option FolderId) : Prop :=
  match filter with
  | None => True
  | Some f => if decide (f = "NULL") then folder = None else folder = Some f
  end.

#[global] Instance accepts_dec filter folder : Decision (accepts filter folder).
Proof. unfold accepts. destruct filter as [f|]; [destruct (decide (f = "NULL"))|]; apply _. Defined.

(** A computation that is a read made without the lock service: it leaves
    the tables and the lock table as they are, makes no call on the lock
    service, and returns the same whatever locks are held. *)
Definition unlocked_read {A} (c : Async A) : Prop :=
  forall w,
    same_stores w (final (c w))
    /\ (exists calls, trace (final (c w)) = trace w ++ calls
                      /\ Forall (fun e => is_lock_event e = false) calls)
    /\ forall held, outcome (c (set_locks held w)) = outcome (c w).

(** The version [update] applies an operation to when the current version of
    the flow is [v]: [v] itself, or its fork when [v] is LOCKED. *)
Definition edited (apId : list string -> string) (w : World) (flowId : FlowId)
    (v : FlowVersion) : FlowVersion :=
  match fv_state v with
  | LOCKED => forked apId w flowId v
  | DRAFT => v
  end.

(** ** Sample helpers and worlds

    One choice for each helper left open above, and a few small worlds, to
    run the service on. *)

Module Sample.

(** An identity that is not in use. *)
Definition apId (used : list string) : string := fresh used.

(** Two operations on a version: renaming it, and one that always fails. *)
Inductive Operation :=
| Rename (displayName : string)
| Broken.

Definition operate (op : Operation) (v : FlowVersion) : Outcome FlowVersionTemplate :=
  match op with
  | Rename n =>
      Returned {| tpl_displayName := n;
                  tpl_valid := fv_valid v;
                  tpl_trigger := fv_trigger v |}
  | Broken => Thrown (OTHER_ERROR "broken operation")
  end.

(** Modelled from the spec: the pagination helpers are not part of the
    service file.  The listing is paginated with a [limit]: a page holds at
    most [limit] of the selected rows.  This paginator serves the first
    page, whatever the cursor, and gives the identity of its last row as
    the next cursor when rows are left. *)
Definition firstPage (limit : Z) (cursor : option string) (selected : list FlowRecord)
  : SeekPage FlowRecord :=
  let page := take (Z.to_nat limit) selected in
  {| data := page;
     next := match drop (Z.to_nat limit) selected with
             | [] => None
             | _ :: _ => rec_id <$> last page
             end;
     previous := None |}.

Definition emptyWorld : World :=
  {| flows := ∅; versions := []; instances := ∅; locks := ∅; trace := [] |}.

Definition publishedVersion : FlowVersion :=
  {| fv_id := "v1";
     fv_flowId := "f1";
     fv_displayName := "Welcome mail";
     fv_trigger := {| trigger_displayName := "Every hour";
                      trigger_name := "trigger";
                      trigger_type := OtherTrigger "SCHEDULE";
                      trigger_settings := [("cron", "0 * * * *")];
                      trigger_valid := true |};
     fv_valid := true;
     fv_state := LOCKED |}.

(** Project p1 has the flows f1 (published, in no folder), f2 (in no
    folder) and f3 (in the folder named NULL); f1 has an instance. *)
Definition world : World :=
  {| flows := {[ "f1" := {| row_projectId := "p1"; row_folderId := None |};
                 "f2" := {| row_projectId := "p1"; row_folderId := None |};
                 "f3" := {| row_projectId := "p1"; row_folderId := Some "NULL" |} ]};
     versions := [publishedVersion];
     instances := {[ "f1" := {| inst_projectId := "p1";
                                inst_flowId := "f1";
                                inst_status := OtherStatus "ENABLED" |} ]};
     locks := ∅;
     trace := [] |}.

(** The same world while another request holds the lock of f1. *)
Definition busyWorld : World := set_locks {[ "f1" ]} world.

End Sample.

(** * Properties of the service *)

Section Properties.

Variable apId : list string -> string.
Variable Operation : Type.
Variable operate : Operation -> FlowVersion -> Outcome FlowVersionTemplate.
Variable paginate : Z -> option string -> list FlowRecord -> SeekPage FlowRecord.

(** ** Runs of the reading operations *)

Lemma lookupFlow_Some w p id r :
  lookupFlow w p id = Some r
  <-> flows w !! id = Some (row_of r) /\ rec_id r = id /\ rec_projectId r = p.
Proof.
  unfold lookupFlow. split.
  - destruct (flows w !! id) as [[rp rf]|]; [|discriminate].
    destruct (decide (_ = p)) as [Hp|]; [|discriminate].
    intros [= <-]. simpl in *. repeat split; assumption.
  - intros (-> & <- & <-). destruct r as [i rp rf]. simpl.
    destruct (decide (rp = rp)); [reflexivity | contradiction].
Qed.

Lemma getOne_run p id vid inc w :
  flowService.getOne p id vid inc w =
  match lookupFlow w p id with
  | None => (Returned None, log (EvRepoFindOneBy p id) w)
  | Some r =>
      (Returned (Some (flowService.formatFlow r (lookupVersion w id vid)
                         (lookupInstance w p (rec_id r)))),
       log (EvInstanceGet p (rec_id r))
         (log (EvGetFlowVersion id) (log (EvRepoFindOneBy p id) w)))
  end.
Proof.
  unfold flowService.getOne, bind, repo_findOneBy. simpl.
  destruct (lookupFlow w p id); reflexivity.
Qed.

Lemma getOneOrThrow_run p id w :
  outcome (flowService.getOneOrThrow p id w) =
  match lookupFlow w p id with
  | None => Thrown (FLOW_NOT_FOUND id)
  | Some r => Returned (flowService.formatFlow r (lookupVersion w id None)
                          (lookupInstance w p (rec_id r)))
  end.
Proof.
  unfold flowService.getOneOrThrow, bind. rewrite getOne_run.
  destruct (lookupFlow w p id); reflexivity.
Qed.

Lemma getOne_same_stores p id vid inc w :
  same_stores w (final (flowService.getOne p id vid inc w)).
Proof.
  rewrite getOne_run. destruct (lookupFlow w p id); repeat split.
Qed.

(** The per-row fetches of [list] read the two tables and write nothing. *)
Lemma forEach_fetch p (l : list FlowRecord) w :
  let fetch := fun flow : FlowRecord =>
    let! version := getFlowVersion p (rec_id flow) None false in
    let! instance := instance_get p (rec_id flow) in
    ret (version, instance) in
  exists w',
    forEach fetch l w
    = (Returned (map (fun r => (lookupVersion w (rec_id r) None,
                                lookupInstance w p (rec_id r))) l), w')
    /\ same_stores w w'.
Proof.
  intros fetch. revert w. induction l as [|r l IH]; intros w.
  - exists w. repeat split.
  - set (w1 := log (EvInstanceGet p (rec_id r)) (log (EvGetFlowVersion (rec_id r)) w)).
    destruct (IH w1) as (w2 & Hrun & Hf & Hv & Hi & Hl).
    exists w2. split.
    + change (forEach fetch (r :: l) w)
        with (match forEach fetch l w1 with
              | (Returned ys, w3) =>
                  (Returned ((lookupVersion w (rec_id r) None,
                              lookupInstance w p (rec_id r)) :: ys), w3)
              | (Thrown e, w3) => (Thrown e, w3)
              end).
      rewrite Hrun. reflexivity.
    + repeat split; [exact Hf | exact Hv | exact Hi | exact Hl].
Qed.

Lemma zip_with_map_r {A B C} (f : A -> B -> C) (g : A -> B) (l : list A) :
  zip_with f l (map g l) = map (fun x => f x (g x)) l.
Proof. induction l as [|x l IH]; simpl; [reflexivity | by rewrite IH]. Qed.

Lemma list_run p c limit fo w :
  let page := paginate limit c (selectRows w (flowService.queryWhere p fo)) in
  exists w',
    flowService.list paginate p c limit fo w
    = (Returned {| data := map (composed w p) (data page);
                   next := next page;
                   previous := previous page |}, w')
    /\ same_stores w w'.
Proof.
  intros page.
  destruct (forEach_fetch p (data page) (log EvRepoQuery w))
    as (w2 & Hrun & Hf & Hv & Hi & Hl).
  exists w2. split.
  - unfold flowService.list, bind, repo_query. fold page.
    cbv beta iota. unfold bind in Hrun. rewrite Hrun.
    unfold ret. rewrite zip_with_map_r. reflexivity.
  - repeat split; [exact Hf | exact Hv | exact Hi | exact Hl].
Qed.

(** ** Reads: [getOne], [getOneOrThrow] and the status composed *)

(** C6.  [getOne] returns null exactly when the project has no flow record
    with the id, and it never throws.  [getOneOrThrow] throws FLOW_NOT_FOUND
    carrying that id exactly when the record is absent, throws nothing else,
    and otherwise returns the Flow that [getOne] composes. *)
Theorem getOne_null_getOneOrThrow_not_found p id w :
  (forall vid inc,
      outcome (flowService.getOne p id vid inc w) = Returned None
      <-> lookupFlow w p id = None)
  /\ (forall vid inc e, outcome (flowService.getOne p id vid inc w) <> Thrown e)
  /\ (outcome (flowService.getOneOrThrow p id w) = Thrown (FLOW_NOT_FOUND id)
      <-> lookupFlow w p id = None)
  /\ (forall e, outcome (flowService.getOneOrThrow p id w) = Thrown e
                -> e = FLOW_NOT_FOUND id)
  /\ (forall fl, outcome (flowService.getOneOrThrow p id w) = Returned fl
                 <-> outcome (flowService.getOne p id None false w) = Returned (Some fl)).
Proof.
  repeat split.
  - rewrite getOne_run. destruct (lookupFlow w p id); [discriminate | reflexivity].
  - intros H. rewrite getOne_run, H. reflexivity.
  - intros vid inc e. rewrite getOne_run. destruct (lookupFlow w p id); discriminate.
  - rewrite getOneOrThrow_run. destruct (lookupFlow w p id); [discriminate | reflexivity].
  - intros H. rewrite getOneOrThrow_run, H. reflexivity.
  - intros e. rewrite getOneOrThrow_run.
    destruct (lookupFlow w p id); [discriminate | congruence].
  - rewrite getOneOrThrow_run, getOne_run.
    destruct (lookupFlow w p id); simpl; [congruence | discriminate].
  - rewrite getOneOrThrow_run, getOne_run.
    destruct (lookupFlow w p id); simpl; [congruence | discriminate].
Qed.

(** C9.  A Flow composed by [getOne], or an entry of a page composed by
    [list], has status UNPUBLISHED when the project has no instance record
    for the flow, and the status of the instance when it has one. *)
Theorem read_status_defaults_to_unpublished p w fl :
  (exists id vid inc,
      outcome (flowService.getOne p id vid inc w) = Returned (Some fl))
  \/ (exists c limit fo page,
         outcome (flowService.list paginate p c limit fo w) = Returned page
         /\ fl ∈ data page) ->
  (lookupInstance w p (flow_id fl) = None -> flow_status fl = Some UNPUBLISHED)
  /\ (forall i, lookupInstance w p (flow_id fl) = Some i
                -> flow_status fl = Some (inst_status i)).
Proof.
  intros H.
  assert (Hst : flow_status fl = Some (statusOf w p (flow_id fl))).
  { destruct H as [(id & vid & inc & Hget) | (c & limit & fo & page & Hlist & Hin)].
    - rewrite getOne_run in Hget. destruct (lookupFlow w p id) as [r|]; [|discriminate].
      simpl in Hget. injection Hget as <-. reflexivity.
    - destruct (list_run p c limit fo w) as (w' & Hrun & _).
      rewrite Hrun in Hlist. simpl in Hlist. injection Hlist as <-.
      simpl in Hin. apply list_elem_of_fmap in Hin as (r & -> & _).
      reflexivity. }
  rewrite Hst. unfold statusOf.
  split; [intros -> | intros i ->]; reflexivity.
Qed.

(** ** [delete] *)

(** C4.  [delete] first runs the instance cleanup [onFlowDelete] and only
    then deletes the record: the cleanup is logged before the deletion, the
    flow table is the same before and after the cleanup (so the cleanup
    finds the flow still there), the deletion runs on the world the cleanup
    leaves, and afterwards [getOne] for the id returns null. *)
Theorem delete_cleanup_before_record p f w :
  let w1 := final (onFlowDelete p f w) in
  let w2 := final (flowService.delete p f w) in
  outcome (flowService.delete p f w) = Returned tt
  /\ trace w2 = trace w ++ [EvOnFlowDelete p f; EvRepoDelete p f]
  /\ flows w1 = flows w
  /\ flowService.delete p f w = repo_delete p f w1
  /\ lookupFlow w2 p f = None
  /\ forall vid inc, outcome (flowService.getOne p f vid inc w2) = Returned None.
Proof.
  intros w1 w2.
  assert (Hcleanup : onFlowDelete p f w = (Returned tt, w1)
                     /\ flows w1 = flows w
                     /\ trace w1 = trace w ++ [EvOnFlowDelete p f]).
  { subst w1. unfold onFlowDelete. simpl.
    destruct (instances w !! f) as [i|]; [|repeat split].
    destruct (decide (inst_projectId i = p)); repeat split. }
  destruct Hcleanup as (Hc & Hflows & Htrace).
  assert (Hdel : flowService.delete p f w = repo_delete p f w1).
  { unfold flowService.delete, bind. rewrite Hc. reflexivity. }
  assert (Hrepo : outcome (repo_delete p f w1) = Returned tt
                  /\ trace (final (repo_delete p f w1)) = trace w1 ++ [EvRepoDelete p f]
                  /\ lookupFlow (final (repo_delete p f w1)) p f = None).
  { unfold repo_delete, lookupFlow. simpl.
    destruct (flows w1 !! f) as [r|] eqn:Hr.
    - destruct (decide (row_projectId r = p)) as [Hp|Hp]; simpl.
      + rewrite lookup_delete_eq. repeat split.
      + rewrite Hr. destruct (decide (row_projectId r = p)); [contradiction|].
        repeat split.
    - simpl. rewrite Hr. repeat split. }
  destruct Hrepo as (Ho & Ht & Hl).
  subst w2. rewrite Hdel.
  split; [exact Ho|]. split.
  { rewrite Ht, Htrace, <- app_assoc. reflexivity. }
  split; [exact Hflows|]. split; [reflexivity|]. split; [exact Hl|].
  intros vid inc. rewrite getOne_run, Hl. reflexivity.
Qed.

(** ** [create] *)

(** C7.  [create] returns a Flow composed with a version of the new flow
    that is stored in the version table; the version and its trigger are
    marked invalid and the trigger is of the EMPTY kind; and a read of the
    flow right after the creation returns that same version. *)
Theorem create_initial_version p req w :
  let w' := final (flowService.create apId p req w) in
  exists fl v,
    outcome (flowService.create apId p req w) = Returned fl
    /\ flow_version fl = Some v
    /\ fv_flowId v = flow_id fl
    /\ v ∈ versions w'
    /\ trigger_type (fv_trigger v) = EMPTY
    /\ trigger_valid (fv_trigger v) = false
    /\ fv_valid v = false
    /\ forall inc, exists fl',
          outcome (flowService.getOne p (flow_id fl) None inc w') = Returned (Some fl')
          /\ flow_version fl' = Some v.
Proof.
  intros w'.
  set (id := apId (usedIds w)).
  set (r := {| rec_id := id; rec_projectId := p; rec_folderId := req_folderId req |}).
  set (w1 := set_flows (<[id := row_of r]> (flows w)) (log (EvRepoSave id) w)).
  set (v := {| fv_id := apId (usedIds w1); fv_flowId := id;
               fv_displayName := req_displayName req;
               fv_trigger := flowService.emptyTrigger;
               fv_valid := false; fv_state := DRAFT |}).
  assert (Hfind : forall tl, List.find
            (fun x => bool_decide (fv_flowId x = id) && true) (v :: tl) = Some v).
  { intros tl. simpl. rewrite bool_decide_eq_true_2 by reflexivity. reflexivity. }
  assert (Hrun : flowService.create apId p req w
                 = (Returned {| flow_id := id; flow_projectId := p;
                                flow_folderId := req_folderId req;
                                flow_version := Some v; flow_status := None |},
                    log (EvTelemetry p id)
                      (log (EvGetFlowVersion id)
                         (set_versions (v :: versions w1)
                            (log (EvCreateVersion id (fv_id v)) w1))))).
  { unfold flowService.create, bind, repo_save, flowService.createVersion,
      getFlowVersion, trackProject, ret, lookupVersion. simpl.
    fold id. fold r. fold w1. fold v.
    rewrite bool_decide_eq_true_2 by reflexivity. reflexivity. }
  subst w'. rewrite Hrun. simpl.
  eexists _, v. split; [reflexivity|]. simpl.
  split; [reflexivity|]. split; [reflexivity|].
  split; [apply list_elem_of_here|].
  split; [reflexivity|]. split; [reflexivity|]. split; [reflexivity|].
  intros inc. rewrite getOne_run.
  unfold lookupFlow. simpl. rewrite lookup_insert_eq. simpl.
  destruct (decide (p = p)); [|contradiction].
  eexists. split; [reflexivity|]. simpl.
  unfold lookupVersion. simpl.
  rewrite bool_decide_eq_true_2 by reflexivity. reflexivity.
Qed.

(** ** The log only grows *)

Lemma extends_ret {A} (a : A) : extends_trace (ret a).
Proof. intros w. exists []. simpl. by rewrite app_nil_r. Qed.

Lemma extends_throw {A} e : extends_trace (@throw A e).
Proof. intros w. exists []. simpl. by rewrite app_nil_r. Qed.

Lemma extends_bind {A B} (c : Async A) (k : A -> Async B) :
  extends_trace c -> (forall a, extends_trace (k a)) -> extends_trace (bind c k).
Proof.
  unfold extends_trace, bind, final in *. intros Hc Hk w.
  destruct (Hc w) as [r1 H1]. destruct (c w) as [[a|e] w1]; simpl in *.
  - destruct (Hk a w1) as [r2 H2]. exists (r1 ++ r2).
    rewrite H2, H1. by rewrite app_assoc.
  - exists r1. exact H1.
Qed.

Lemma extends_try_finally {A} (body : Async A) (fin : Async unit) :
  extends_trace body -> extends_trace fin -> extends_trace (try_finally body fin).
Proof.
  unfold extends_trace, try_finally, final in *. intros Hb Hf w.
  destruct (Hb w) as [r1 H1]. destruct (body w) as [o w1]; simpl in *.
  destruct (Hf w1) as [r2 H2]. exists (r1 ++ r2).
  destruct (fin w1) as [[u|e] w2]; simpl in *; rewrite H2, H1; by rewrite app_assoc.
Qed.

Lemma extends_log {A} (f : World -> Outcome A) ev :
  extends_trace (fun w => (f w, log ev w)).
Proof. intros w. exists [ev]. reflexivity. Qed.

Lemma extends_release l : extends_trace (release l).
Proof. intros w. exists [EvRelease (lock_key l)]. reflexivity. Qed.

Lemma extends_repo_update id values : extends_trace (repo_update id values).
Proof.
  intros w. exists [EvRepoUpdate id]. unfold repo_update. simpl.
  destruct (flows w !! id); reflexivity.
Qed.

Lemma extends_createVersion f t : extends_trace (flowService.createVersion apId f t).
Proof. intros w. eexists [_]. reflexivity. Qed.

Lemma extends_applyOperation p v op :
  extends_trace (flowService.applyOperation operate p v op).
Proof.
  intros w. exists [EvApplyOperation (fv_id v)]. unfold flowService.applyOperation.
  destruct (operate op v); reflexivity.
Qed.

Lemma extends_getOne p id vid inc : extends_trace (flowService.getOne p id vid inc).
Proof.
  intros w. rewrite getOne_run. destruct (lookupFlow w p id) as [r|]; simpl.
  - eexists [_; _; _]. rewrite <- !app_assoc. reflexivity.
  - eexists [_]. reflexivity.
Qed.

Lemma update_after_lock p f (req : FlowOperationRequest Operation) :
  flowService.update apId operate p f req
  = (let! flowLock := acquireLock f 5000 in update_holding apId operate p f req flowLock).
Proof. reflexivity. Qed.

Lemma extends_update_holding p f (req : FlowOperationRequest Operation) l :
  extends_trace (update_holding apId operate p f req l).
Proof.
  apply extends_bind; [apply extends_log|]. intros [flow|]; [|apply extends_throw].
  apply extends_bind; [|intros _; apply extends_getOne].
  apply extends_try_finally; [|apply extends_release].
  unfold update_try.
  destruct req as [fo|op]; [apply extends_repo_update|].
  apply extends_bind; [apply extends_log|]. intros [v|]; [|apply extends_throw].
  apply extends_bind.
  - destruct (fv_state v); [apply extends_ret | apply extends_createVersion].
  - intros v'. apply extends_bind; [apply extends_applyOperation|].
    intros _. apply extends_ret.
Qed.

(** ** [update]: the lock *)

Lemma acquireLock_held key timeout w :
  key ∈ locks w ->
  acquireLock key timeout w = (Thrown (LOCK_TIMEOUT key), log (EvAcquireLock key timeout) w).
Proof. intros H. unfold acquireLock. simpl. by rewrite decide_True. Qed.

Lemma acquireLock_free key timeout w :
  key ∉ locks w ->
  acquireLock key timeout w
  = (Returned {| lock_key := key |},
     set_locks ({[key]} ∪ locks w) (log (EvAcquireLock key timeout) w)).
Proof. intros H. unfold acquireLock. simpl. by rewrite decide_False. Qed.

(** C3.  The first thing [update] does is to ask for the lock keyed by the
    flow id with a wait of 5000: every other call it makes is logged after
    that one.  When the acquisition fails, [update] fails with the same
    error, makes no other call and leaves the tables as they were. *)
Theorem update_acquires_lock_first p f req w :
  let run := flowService.update apId operate p f req w in
  (exists rest, trace (final run) = trace w ++ EvAcquireLock f 5000 :: rest)
  /\ (forall e, outcome (acquireLock f 5000 w) = Thrown e ->
        outcome run = Thrown e
        /\ trace (final run) = trace w ++ [EvAcquireLock f 5000]
        /\ same_stores w (final run)).
Proof.
  intros run. subst run. split.
  - rewrite update_after_lock. unfold bind.
    destruct (decide (f ∈ locks w)) as [Hin|Hnin].
    + rewrite (acquireLock_held _ _ _ Hin). exists []. reflexivity.
    + rewrite (acquireLock_free _ _ _ Hnin).
      destruct (extends_update_holding p f req {| lock_key := f |}
                  (set_locks ({[f]} ∪ locks w) (log (EvAcquireLock f 5000) w)))
        as [more Hmore].
      exists more. cbv beta iota. etrans; [exact Hmore|].
      simpl. by rewrite <- app_assoc.
  - intros e He. rewrite update_after_lock. unfold bind.
    destruct (decide (f ∈ locks w)) as [Hin|Hnin].
    + rewrite (acquireLock_held _ _ _ Hin) in *.
      unfold outcome in He. simpl in He. injection He as <-. repeat split.
    + rewrite (acquireLock_free _ _ _ Hnin) in He. discriminate.
Qed.

Lemma update_not_found_run p f (req : FlowOperationRequest Operation) w :
  f ∉ locks w -> lookupFlow w p f = None ->
  flowService.update apId operate p f req w
  = (Thrown (FLOW_NOT_FOUND f), loaded p f w).
Proof.
  intros Hl Hr. rewrite update_after_lock. unfold bind at 1.
  rewrite (acquireLock_free _ _ _ Hl). cbv beta iota.
  unfold update_holding, bind, repo_findOneBy.
  change (lookupFlow (set_locks ({[f]} ∪ locks w) (log (EvAcquireLock f 5000) w)) p f)
    with (lookupFlow w p f).
  rewrite Hr. reflexivity.
Qed.

Lemma update_found_run p f (req : FlowOperationRequest Operation) w r :
  f ∉ locks w -> lookupFlow w p f = Some r ->
  flowService.update apId operate p f req w
  = let tried := update_try apId operate p f req r (loaded p f w) in
    match outcome tried with
    | Returned _ => flowService.getOne p f None false (released f (final tried))
    | Thrown e => (Thrown e, released f (final tried))
    end.
Proof.
  intros Hl Hr. rewrite update_after_lock. unfold bind at 1.
  rewrite (acquireLock_free _ _ _ Hl). cbv beta iota.
  unfold update_holding. unfold bind at 1. unfold repo_findOneBy at 1.
  change (lookupFlow (set_locks ({[f]} ∪ locks w) (log (EvAcquireLock f 5000) w)) p f)
    with (lookupFlow w p f).
  rewrite Hr. cbv beta iota.
  unfold bind, try_finally, released, outcome, final, loaded.
  destruct (update_try apId operate p f req r _) as [[u|e] wb]; reflexivity.
Qed.

(** The tables and the locks at the end of an [update] that found the flow
    are those its [try] block left, with the lock of the flow released. *)
Lemma update_found_stores p f (req : FlowOperationRequest Operation) w r :
  f ∉ locks w -> lookupFlow w p f = Some r ->
  let tried := final (update_try apId operate p f req r (loaded p f w)) in
  let w' := final (flowService.update apId operate p f req w) in
  flows w' = flows tried /\ versions w' = versions tried
  /\ instances w' = instances tried /\ locks w' = locks tried ∖ {[f]}
  /\ exists before after, trace w' = before ++ EvRelease f :: after.
Proof.
  intros Hl Hr tried w'. subst w'. rewrite (update_found_run _ _ _ _ _ Hl Hr).
  cbv zeta. fold tried.
  destruct (outcome (update_try apId operate p f req r (loaded p f w))) as [u|e].
  - destruct (getOne_same_stores p f None false (released f tried)) as (Hf & Hv & Hi & Hk).
    rewrite Hf, Hv, Hi, Hk. repeat split.
    destruct (extends_getOne p f None false (released f tried)) as [more Hmore].
    exists (trace tried), more. rewrite Hmore. simpl. by rewrite <- app_assoc.
  - repeat split. exists (trace tried), []. reflexivity.
Qed.

(** The [try] block touches neither the locks nor the instance table; a
    folder change leaves the version table alone, and an operation on the
    version leaves the flow table alone. *)
Lemma update_try_frame p f (req : FlowOperationRequest Operation) r w :
  let w' := final (update_try apId operate p f req r w) in
  locks w' = locks w /\ instances w' = instances w
  /\ match req with
     | CHANGE_FOLDER _ => versions w' = versions w
     | VersionOperation _ => flows w' = flows w
     end.
Proof.
  unfold update_try. destruct req as [fo|op].
  - unfold repo_update. simpl. destruct (flows w !! rec_id r); repeat split.
  - unfold bind, getFlowVersion, throw, ret, flowService.createVersion,
      flowService.applyOperation. simpl.
    destruct (lookupVersion w f None) as [v|]; [|repeat split].
    destruct (fv_state v); simpl.
    + destruct (operate op v); repeat split.
    + destruct (operate op _); repeat split.
Qed.

(** When the flow record is there, the lock is released, whether the [try]
    block returns or throws. *)
Lemma update_found_releases_lock p f (req : FlowOperationRequest Operation) w r :
  f ∉ locks w -> lookupFlow w p f = Some r ->
  let w' := final (flowService.update apId operate p f req w) in
  locks w' = locks w
  /\ exists before after, trace w' = before ++ EvRelease f :: after.
Proof.
  intros Hl Hr w'.
  destruct (update_found_stores p f req w r Hl Hr) as (_ & _ & _ & Hk & Htr).
  destruct (update_try_frame p f req r (loaded p f w)) as (Hk' & _).
  split; [|exact Htr].
  subst w'. rewrite Hk, Hk'. simpl. apply set_eq. intros x.
  rewrite elem_of_difference, elem_of_union, elem_of_singleton.
  split; [tauto|]. intros Hx. split; [tauto|]. congruence.
Qed.

(** C1.  The path on which the lock is not released.  When [update] obtains
    the lock and the project has no flow record with the id, it throws
    FLOW_NOT_FOUND right after the lookup: the lookup is outside the [try]
    whose [finally] releases the lock, so no release is logged, the lock is
    still held when [update] has returned, and every later [update] of that
    flow times out on the lock. *)
Theorem update_not_found_leaks_lock p f (req : FlowOperationRequest Operation) w :
  f ∉ locks w -> lookupFlow w p f = None ->
  let run := flowService.update apId operate p f req w in
  outcome run = Thrown (FLOW_NOT_FOUND f)
  /\ trace (final run) = trace w ++ [EvAcquireLock f 5000; EvRepoFindOneBy p f]
  /\ f ∈ locks (final run)
  /\ forall p' (req' : FlowOperationRequest Operation),
       outcome (flowService.update apId operate p' f req' (final run))
       = Thrown (LOCK_TIMEOUT f).
Proof.
  intros Hl Hr run. subst run. rewrite (update_not_found_run _ _ _ _ Hl Hr).
  assert (Hheld : f ∈ locks (loaded p f w)) by (simpl; set_solver).
  split; [reflexivity|]. split.
  { simpl. by rewrite <- app_assoc. }
  split; [exact Hheld|].
  intros p' req'. simpl. rewrite update_after_lock. unfold bind.
  rewrite (acquireLock_held _ _ _ Hheld). reflexivity.
Qed.

(** ** [update]: a folder reassignment *)

Lemma update_try_change_folder p f fo r w :
  lookupFlow w p f = Some r ->
  flows (final (update_try apId operate p f (CHANGE_FOLDER fo) r (loaded p f w)))
  = <[f := {| row_projectId := rec_projectId r; row_folderId := fo |}]> (flows w).
Proof.
  intros Hr. apply lookupFlow_Some in Hr as (Hrow & Hid & _).
  unfold update_try, repo_update. simpl. rewrite Hid, Hrow. simpl.
  apply insert_delete_eq.
Qed.

(** C8.  An [update] with a CHANGE_FOLDER request leaves the version table
    (and the instance table) as it was, leaves every other flow record as it
    was, and changes at most the folder of the record of the flow, and that
    to the folder asked for: the record keeps its key and its project.  When
    the lock is free and the record is there, the folder is set. *)
Theorem update_change_folder_frame p f fo w :
  let w' := final (flowService.update apId operate p f (CHANGE_FOLDER fo) w) in
  versions w' = versions w
  /\ instances w' = instances w
  /\ (forall k, k ≠ f -> flows w' !! k = flows w !! k)
  /\ (flows w !! f = None -> flows w' !! f = None)
  /\ (forall row, flows w !! f = Some row ->
        exists row', flows w' !! f = Some row'
                     /\ row_projectId row' = row_projectId row
                     /\ (row_folderId row' = row_folderId row \/ row_folderId row' = fo))
  /\ (forall r, f ∉ locks w -> lookupFlow w p f = Some r ->
        flows w' !! f = Some {| row_projectId := rec_projectId r; row_folderId := fo |}).
Proof.
  intros w'.
  assert (Hcases :
    (flows w' = flows w /\ versions w' = versions w /\ instances w' = instances w
     /\ (f ∈ locks w \/ lookupFlow w p f = None))
    \/ (exists r, (f ∉ locks w) /\ lookupFlow w p f = Some r
                  /\ flows w' = <[f := {| row_projectId := rec_projectId r;
                                          row_folderId := fo |}]> (flows w)
                  /\ versions w' = versions w /\ instances w' = instances w)).
  { subst w'. destruct (decide (f ∈ locks w)) as [Hin|Hl].
    - left. rewrite update_after_lock. unfold bind.
      rewrite (acquireLock_held _ _ _ Hin). simpl. auto.
    - destruct (lookupFlow w p f) as [r|] eqn:Hr.
      + right. exists r.
        destruct (update_found_stores p f (CHANGE_FOLDER fo) w r Hl Hr)
          as (Hf & Hv & Hi & _).
        destruct (update_try_frame p f (CHANGE_FOLDER fo) r (loaded p f w))
          as (_ & Hi' & Hv').
        rewrite Hf, Hv, Hi, Hi', Hv', (update_try_change_folder _ _ _ _ _ Hr).
        repeat split; assumption.
      + left. rewrite (update_not_found_run _ _ _ _ Hl Hr). simpl. auto. }
  destruct Hcases as [(Hf & Hv & Hi & Hwhy) | (r & Hl & Hr & Hf & Hv & Hi)].
  - rewrite Hf. split; [exact Hv|]. split; [exact Hi|].
    split; [reflexivity|]. split; [tauto|]. split.
    + intros row Hrow. exists row. auto.
    + intros r Hl Hr. destruct Hwhy as [Hin|Hnone]; [contradiction | congruence].
  - rewrite Hf. split; [exact Hv|]. split; [exact Hi|].
    pose proof Hr as Hr'. apply lookupFlow_Some in Hr' as (Hrow & Hid & Hp).
    split; [intros k Hk; by rewrite lookup_insert_ne|]. split; [congruence|]. split.
    + intros row Hrow'. rewrite lookup_insert_eq. eexists. split; [reflexivity|].
      simpl. rewrite Hrow in Hrow'. injection Hrow' as <-. auto.
    + intros r' _ Hr2. rewrite lookup_insert_eq. congruence.
Qed.

(** ** [update]: an operation on the version *)

Lemma map_replace_fresh (n : FlowVersionId) (v' : FlowVersion) (l : list FlowVersion) :
  n ∉ map fv_id l ->
  map (fun x => if decide (fv_id x = n) then v' else x) l = l.
Proof.
  induction l as [|x l IH]; simpl; [reflexivity|].
  intros Hn. apply not_elem_of_cons in Hn as [Hx Hl].
  rewrite decide_False by congruence. by rewrite IH.
Qed.

Lemma map_replace_ids (v v' : FlowVersion) (l : list FlowVersion) :
  fv_id v' = fv_id v ->
  map fv_id (map (fun x => if decide (fv_id x = fv_id v) then v' else x) l)
  = map fv_id l.
Proof.
  intros Hid. induction l as [|x l IH]; simpl; [reflexivity|].
  rewrite IH. destruct (decide (fv_id x = fv_id v)); congruence.
Qed.

Lemma lookupVersion_elem w f vid v : lookupVersion w f vid = Some v -> v ∈ versions w.
Proof.
  unfold lookupVersion. intros H. apply find_some in H as [Hin _].
  by apply list_elem_of_In.
Qed.

(** The version table after the [try] block of an operation on the version,
    by the state of the current version. *)
Lemma update_try_versions p f op r w v :
  lookupVersion w f None = Some v ->
  versions (final (update_try apId operate p f (VersionOperation op) r (loaded p f w)))
  = match fv_state v with
    | LOCKED =>
        let new := forked apId w f v in
        match operate op new with
        | Returned t =>
            map (fun x => if decide (fv_id x = fv_id new)
                          then flowService.with_content new t else x)
              (new :: versions w)
        | Thrown _ => new :: versions w
        end
    | DRAFT =>
        match operate op v with
        | Returned t =>
            map (fun x => if decide (fv_id x = fv_id v)
                          then flowService.with_content v t else x)
              (versions w)
        | Thrown _ => versions w
        end
    end.
Proof.
  intros Hv. unfold update_try, bind, getFlowVersion.
  change (lookupVersion (loaded p f w) f None) with (lookupVersion w f None).
  rewrite Hv. cbv beta iota.
  destruct (fv_state v).
  - unfold ret, flowService.applyOperation. cbv beta iota zeta.
    destruct (operate op v); reflexivity.
  - unfold flowService.createVersion, flowService.applyOperation. cbv beta iota zeta.
    change (apId (usedIds (log (EvGetFlowVersion f) (loaded p f w))))
      with (apId (usedIds w)).
    match goal with
    | |- context [operate op ?x] => change x with (forked apId w f v)
    end.
    destruct (operate op (forked apId w f v)); reflexivity.
Qed.

(** C2.  An [update] that obtains the lock, finds the flow record and its
    current version [v], and whose request is an operation on the version.
    When [v] is LOCKED, a new version is stored in front of the version
    table: its identity is not that of any version stored before, [v]
    included; it is seeded with the content of [v]; the operation is applied
    to it; and every version stored before, [v] included, is left as it was.
    When [v] is not LOCKED, the operation is applied to the versions with
    the identity of [v] and no version is added.  The flow table is left
    alone in both cases. *)
Theorem update_copy_on_write p f op w r v :
  (forall l, apId l ∉ l) ->
  f ∉ locks w ->
  lookupFlow w p f = Some r ->
  lookupVersion w f None = Some v ->
  let w' := final (flowService.update apId operate p f (VersionOperation op) w) in
  flows w' = flows w
  /\ match fv_state v with
     | LOCKED =>
         let new := forked apId w f v in
         (fv_id new ∉ map fv_id (versions w))
         /\ fv_id new ≠ fv_id v
         /\ template_of new = template_of v
         /\ versions w' = applied operate op new :: versions w
         /\ v ∈ versions w'
     | DRAFT =>
         (forall t, operate op v = Returned t ->
            versions w' = map (fun x => if decide (fv_id x = fv_id v)
                                        then flowService.with_content v t else x)
                            (versions w))
         /\ (forall e, operate op v = Thrown e -> versions w' = versions w)
         /\ map fv_id (versions w') = map fv_id (versions w)
     end.
Proof.
  intros Hfresh Hl Hr Hv w'.
  destruct (update_found_stores p f (VersionOperation op) w r Hl Hr)
    as (Hf & Hvs & _).
  destruct (update_try_frame p f (VersionOperation op) r (loaded p f w))
    as (_ & _ & Hf').
  split; [subst w'; by rewrite Hf, Hf'|].
  assert (Hw' : versions w'
                = versions (final (update_try apId operate p f (VersionOperation op) r
                                     (loaded p f w)))) by exact Hvs.
  rewrite (update_try_versions _ _ _ _ _ _ Hv) in Hw'.
  pose proof (lookupVersion_elem _ _ _ _ Hv) as Hin.
  destruct (fv_state v).
  - split; [|split].
    + intros t Ht. by rewrite Ht in Hw'.
    + intros e He. by rewrite He in Hw'.
    + rewrite Hw'. destruct (operate op v); [|reflexivity].
      by apply map_replace_ids.
  - cbv zeta in *.
    assert (Hnew : fv_id (forked apId w f v) ∉ map fv_id (versions w)).
    { simpl. intros Hbad. apply (Hfresh (usedIds w)). unfold usedIds.
      apply elem_of_app. by left. }
    assert (Hvers : versions w' = applied operate op (forked apId w f v) :: versions w).
    { rewrite Hw'. unfold applied.
      destruct (operate op (forked apId w f v)) as [t|e]; [|reflexivity].
      simpl. rewrite decide_True by reflexivity. f_equal.
      by apply map_replace_fresh. }
    split; [exact Hnew|]. split.
    { intros Heq. apply Hnew. rewrite Heq. by apply list_elem_of_fmap_2. }
    split; [reflexivity|]. split; [exact Hvers|].
    rewrite Hvers. by apply list_elem_of_further.
Qed.

(** ** [list] and [count]: the folder filter *)

Lemma elem_of_rows w r : r ∈ rows w <-> flows w !! rec_id r = Some (row_of r).
Proof.
  unfold rows. rewrite list_elem_of_fmap. split.
  - intros ([k row] & -> & Hin). apply elem_of_map_to_list in Hin.
    destruct row. exact Hin.
  - intros H. exists (rec_id r, row_of r). split; [by destruct r|].
    by apply elem_of_map_to_list.
Qed.

Lemma matches_spec q r :
  matches q r = true
  <-> rec_projectId r = where_projectId q
      /\ match where_folderId q with
         | None => True
         | Some IsNull => rec_folderId r = None
         | Some (Equal fid) => rec_folderId r = Some fid
         end.
Proof.
  unfold matches. rewrite andb_true_iff, bool_decide_eq_true.
  destruct (where_folderId q) as [[|fid]|]; rewrite ?bool_decide_eq_true; tauto.
Qed.

Lemma selectRows_no_folder w p :
  selectRows w (flowService.queryWhere p (Some "NULL")) = unfiled w p.
Proof.
  unfold selectRows, unfiled. apply list_filter_iff. intros r.
  rewrite matches_spec. reflexivity.
Qed.

(** [count] selects with the [where] that [list] builds. *)
Lemma count_run p fo w :
  flowService.count p fo w
  = (Returned (length (selectRows w (flowService.queryWhere p fo))), log EvRepoCount w).
Proof.
  unfold flowService.count, flowService.queryWhere, repo_count.
  destruct fo as [fid|]; [|reflexivity].
  destruct (decide (fid ≠ "NULL")) as [Hne|Heq].
  - rewrite decide_False by exact Hne. reflexivity.
  - rewrite decide_True by (destruct (decide (fid = "NULL")); tauto). reflexivity.
Qed.



Lemma selectRows_folder w p fid :
  selectRows w (flowService.queryWhere p (Some fid))
  = filter (fun r => rec_projectId r = p
                     /\ rec_folderId r = if decide (fid = "NULL") then None else Some fid)
      (rows w).
Proof.
  unfold selectRows. apply list_filter_iff. intros r.
  rewrite matches_spec. simpl. destruct (decide (fid = "NULL")); reflexivity.
Qed.

(** C10.  In [list] and in [count] a [folderId] equal to the string 'NULL'
    is the sentinel: [list] pages over the flows of the project without
    folder and [count] counts them.  So whatever folder is asked for, [list]
    pages over, and [count] counts, the flows of the project whose folder is
    unset (for 'NULL') or is the folder asked for (for any other string), and
    never one whose stored folder is the string 'NULL': no entry of a page of
    [list] is such a flow (the paginator returning rows it was given). *)
Theorem null_literal_is_no_folder_sentinel p c limit w :
  (forall lim cur l r, r ∈ data (paginate lim cur l) -> r ∈ l) ->
  (let page := paginate limit c (unfiled w p) in
   outcome (flowService.list paginate p c limit (Some "NULL") w)
   = Returned {| data := map (composed w p) (data page);
                 next := next page;
                 previous := previous page |}
   /\ outcome (flowService.count p (Some "NULL") w) = Returned (length (unfiled w p)))
  /\ forall fid,
       let sel := filter (fun r => rec_projectId r = p
                                   /\ rec_folderId r
                                      = if decide (fid = "NULL") then None else Some fid)
                    (rows w) in
       let page := paginate limit c sel in
       outcome (flowService.list paginate p c limit (Some fid) w)
       = Returned {| data := map (composed w p) (data page);
                     next := next page;
                     previous := previous page |}
       /\ outcome (flowService.count p (Some fid) w) = Returned (length sel)
       /\ (forall r, r ∈ sel -> rec_folderId r ≠ Some "NULL")
       /\ (forall fl, fl ∈ map (composed w p) (data page) ->
             flow_folderId fl ≠ Some "NULL"
             /\ (fid = "NULL" -> flow_folderId fl = None)).
Proof.
  intros Hsound. split.
  - cbv zeta. destruct (list_run p c limit (Some "NULL") w) as (w' & Hrun & _).
    rewrite Hrun, count_run, selectRows_no_folder. split; reflexivity.
  - intros fid sel page.
    assert (Hsel : forall r, r ∈ sel ->
               rec_folderId r ≠ Some "NULL" /\ (fid = "NULL" -> rec_folderId r = None)).
    { intros r Hr. unfold sel in Hr. apply list_elem_of_filter in Hr as [[_ Hf] _].
      rewrite Hf. destruct (decide (fid = "NULL")) as [->|Hne].
      - split; [discriminate | reflexivity].
      - split; [congruence | contradiction]. }
    destruct (list_run p c limit (Some fid) w) as (w' & Hrun & _).
    rewrite selectRows_folder in Hrun. fold sel in Hrun. fold page in Hrun.
    rewrite Hrun, count_run, selectRows_folder. fold sel.
    split; [reflexivity|]. split; [reflexivity|].
    split; [intros r Hr; by apply Hsel|].
    intros fl Hfl. apply list_elem_of_fmap in Hfl as (r & -> & Hr).
    apply Hsound in Hr. exact (Hsel r Hr).
Qed.

End Properties.

(** * Further properties of the service *)

Section FurtherProperties.

Variable apId : list string -> string.
Variable Operation : Type.
Variable operate : Operation -> FlowVersion -> Outcome FlowVersionTemplate.
Variable paginate : Z -> option string -> list FlowRecord -> SeekPage FlowRecord.

(** ** The reads *)

Lemma forEach_fetch_log p (l : list FlowRecord) w :
  let fetch := fun flow : FlowRecord =>
    let! version := getFlowVersion p (rec_id flow) None false in
    let! instance := instance_get p (rec_id flow) in
    ret (version, instance) in
  exists w',
    forEach fetch l w
    = (Returned (map (fun r => (lookupVersion w (rec_id r) None,
                                lookupInstance w p (rec_id r))) l), w')
    /\ same_stores w w'
    /\ trace w' = trace w ++ fetch_calls p l.
Proof.
  intros fetch. revert w. induction l as [|r l IH]; intros w.
  - exists w. split; [reflexivity|]. split; [repeat split|].
    simpl. by rewrite app_nil_r.
  - set (w1 := log (EvInstanceGet p (rec_id r)) (log (EvGetFlowVersion (rec_id r)) w)).
    destruct (IH w1) as (w2 & Hrun & (Hf & Hv & Hi & Hl) & Htr).
    exists w2. split; [|split].
    + change (forEach fetch (r :: l) w)
        with (match forEach fetch l w1 with
              | (Returned ys, w3) =>
                  (Returned ((lookupVersion w (rec_id r) None,
                              lookupInstance w p (rec_id r)) :: ys), w3)
              | (Thrown e, w3) => (Thrown e, w3)
              end).
      rewrite Hrun. reflexivity.
    + repeat split; [exact Hf | exact Hv | exact Hi | exact Hl].
    + rewrite Htr. simpl. rewrite <- !app_assoc. reflexivity.
Qed.

Lemma list_run_log p c limit fo w :
  let page := paginate limit c (selectRows w (flowService.queryWhere p fo)) in
  exists w',
    flowService.list paginate p c limit fo w
    = (Returned {| data := map (composed w p) (data page);
                   next := next page;
                   previous := previous page |}, w')
    /\ same_stores w w'
    /\ trace w' = trace w ++ EvRepoQuery :: fetch_calls p (data page).
Proof.
  intros page.
  destruct (forEach_fetch_log p (data page) (log EvRepoQuery w))
    as (w2 & Hrun & (Hf & Hv & Hi & Hl) & Htr).
  exists w2. split; [|split].
  - unfold flowService.list, bind, repo_query. fold page.
    cbv beta iota. unfold bind in Hrun. rewrite Hrun.
    unfold ret. rewrite zip_with_map_r. reflexivity.
  - repeat split; [exact Hf | exact Hv | exact Hi | exact Hl].
  - rewrite Htr. simpl. by rewrite <- app_assoc.
Qed.

Lemma fetch_calls_no_lock p l : Forall (fun e => is_lock_event e = false) (fetch_calls p l).
Proof.
  induction l as [|r l IH]; simpl; [constructor|].
  constructor; [reflexivity|]. constructor; [reflexivity|]. exact IH.
Qed.

Lemma fetch_calls_length p l : length (fetch_calls p l) = (2 * length l)%nat.
Proof. induction l as [|r l IH]; simpl; [reflexivity|]. rewrite IH. lia. Qed.

Lemma lookupVersion_Some w f vid v :
  lookupVersion w f vid = Some v ->
  v ∈ versions w /\ fv_flowId v = f /\ forall i, vid = Some i -> fv_id v = i.
Proof.
  unfold lookupVersion. intros H. apply find_some in H as [Hin Hm].
  apply andb_true_iff in Hm as [Hf Hi]. apply bool_decide_eq_true in Hf.
  split; [by apply list_elem_of_In|]. split; [exact Hf|].
  intros i ->. by apply bool_decide_eq_true in Hi.
Qed.

Lemma lookupVersion_None w f vid :
  lookupVersion w f vid = None ->
  forall v, v ∈ versions w -> fv_flowId v = f -> exists i, vid = Some i /\ fv_id v ≠ i.
Proof.
  unfold lookupVersion. intros H v Hin Hf.
  apply list_elem_of_In in Hin. pose proof (find_none _ _ H v Hin) as Hm. simpl in Hm.
  apply andb_false_iff in Hm as [Hm|Hm].
  - apply bool_decide_eq_false in Hm. contradiction.
  - destruct vid as [i|]; [|discriminate]. exists i. split; [reflexivity|].
    by apply bool_decide_eq_false in Hm.
Qed.

Lemma matches_accepts p fo r :
  matches (flowService.queryWhere p fo) r = true
  <-> rec_projectId r = p /\ accepts fo (rec_folderId r).
Proof.
  rewrite matches_spec. unfold accepts. simpl.
  destruct fo as [f|]; [|reflexivity]. destruct (decide (f = "NULL")); reflexivity.
Qed.

(** X1.  For every folder filter, left out, the sentinel or a folder,
    [count] returns the number of the flows of the project that the filter
    accepts, and [list] pages over those same flows: the page is the
    paginator's cut of them, row by row. *)
Theorem count_and_list_select_alike p c limit fo w :
  let sel := filter (fun r => rec_projectId r = p /\ accepts fo (rec_folderId r)) (rows w) in
  outcome (flowService.count p fo w) = Returned (length sel)
  /\ exists page,
       outcome (flowService.list paginate p c limit fo w) = Returned page
       /\ map flow_id (data page) = map rec_id (data (paginate limit c sel))
       /\ next page = next (paginate limit c sel)
       /\ previous page = previous (paginate limit c sel).
Proof.
  intros sel.
  assert (Hsel : selectRows w (flowService.queryWhere p fo) = sel).
  { unfold selectRows, sel. apply list_filter_iff. intros r. apply matches_accepts. }
  split.
  - rewrite count_run, Hsel. reflexivity.
  - destruct (list_run_log p c limit fo w) as (w' & Hrun & _).
    rewrite Hsel in Hrun. eexists. rewrite Hrun. split; [reflexivity|]. simpl.
    split; [|split; reflexivity].
    rewrite map_map. reflexivity.
Qed.

(** X2.  The reads take no lock and write nothing: each of [getOne],
    [getOneOrThrow], [list] and [count] leaves the tables and the lock table
    as they are, makes no call on the lock service, and returns the same
    whatever locks are held. *)
Theorem reads_take_no_lock p :
  (forall id vid inc, unlocked_read (flowService.getOne p id vid inc))
  /\ (forall id, unlocked_read (flowService.getOneOrThrow p id))
  /\ (forall c limit fo, unlocked_read (flowService.list paginate p c limit fo))
  /\ (forall fo, unlocked_read (flowService.count p fo)).
Proof.
  assert (HgetOne : forall id vid inc, unlocked_read (flowService.getOne p id vid inc)).
  { intros id vid inc w. split; [apply getOne_same_stores|]. split.
    - rewrite getOne_run. destruct (lookupFlow w p id) as [r|]; simpl.
      + eexists [_; _; _]. rewrite <- !app_assoc. split; [reflexivity|].
        repeat constructor.
      + eexists [_]. split; [reflexivity|]. repeat constructor.
    - intros held. rewrite !getOne_run.
      change (lookupFlow (set_locks held w) p id) with (lookupFlow w p id).
      destruct (lookupFlow w p id); reflexivity. }
  split; [exact HgetOne|]. split; [|split].
  - intros id w.
    assert (Hfinal : final (flowService.getOneOrThrow p id w)
                     = final (flowService.getOne p id None false w)).
    { unfold flowService.getOneOrThrow, bind.
      destruct (flowService.getOne p id None false w) as [[[fl|]|e] w1]; reflexivity. }
    rewrite Hfinal. destruct (HgetOne id None false w) as (Hst & Hcalls & _).
    split; [exact Hst|]. split; [exact Hcalls|].
    intros held. rewrite !getOneOrThrow_run. reflexivity.
  - intros c limit fo w.
    destruct (list_run_log p c limit fo w) as (w' & Hrun & Hst & Htr).
    rewrite Hrun. split; [exact Hst|]. split.
    + eexists. split; [exact Htr|]. constructor; [reflexivity|].
      apply fetch_calls_no_lock.
    + intros held.
      destruct (list_run_log p c limit fo (set_locks held w)) as (w2 & Hrun2 & _).
      rewrite Hrun2. reflexivity.
  - intros fo w. rewrite count_run. split; [repeat split|]. split.
    + exists [EvRepoCount]. split; [reflexivity | repeat constructor].
    + intros held. rewrite count_run. reflexivity.
Qed.

(** X3.  [list] makes one query and then, for each row of the page in the
    order of the page, one call for the version of the flow and one for its
    instance: one call and two more for each entry. *)
Theorem list_two_calls_per_entry p c limit fo w :
  let rows_of_page := data (paginate limit c (selectRows w (flowService.queryWhere p fo))) in
  let w' := final (flowService.list paginate p c limit fo w) in
  trace w' = trace w ++ EvRepoQuery :: fetch_calls p rows_of_page
  /\ length (trace w') = (length (trace w) + 1 + 2 * length rows_of_page)%nat.
Proof.
  intros rows_of_page w'.
  destruct (list_run_log p c limit fo w) as (w2 & Hrun & _ & Htr).
  fold rows_of_page in Htr. clearbody rows_of_page.
  subst w'. rewrite Hrun. simpl. split; [exact Htr|].
  rewrite Htr, length_app. simpl. rewrite fetch_calls_length. lia.
Qed.

(** X4.  The entries of a page of [list] follow the rows of the paginator,
    position by position: an entry has the id, the project and the folder of
    its row and the version looked up for that very flow, which is a stored
    version of that flow, or null when the flow has no version. *)
Theorem list_entries_follow_rows p c limit fo w page i fl :
  outcome (flowService.list paginate p c limit fo w) = Returned page ->
  data page !! i = Some fl ->
  exists r,
    data (paginate limit c (selectRows w (flowService.queryWhere p fo))) !! i = Some r
    /\ flow_id fl = rec_id r
    /\ flow_projectId fl = rec_projectId r
    /\ flow_folderId fl = rec_folderId r
    /\ (forall v, flow_version fl = Some v -> v ∈ versions w /\ fv_flowId v = flow_id fl)
    /\ (flow_version fl = None -> forall v, v ∈ versions w -> fv_flowId v ≠ flow_id fl).
Proof.
  intros Hlist Hi.
  destruct (list_run_log p c limit fo w) as (w' & Hrun & _).
  rewrite Hrun in Hlist. simpl in Hlist. injection Hlist as <-. simpl in Hi.
  apply list_lookup_fmap_Some in Hi as (r & -> & Hr).
  exists r. split; [exact Hr|]. simpl.
  split; [reflexivity|]. split; [reflexivity|]. split; [reflexivity|]. split.
  - intros v Hv. apply lookupVersion_Some in Hv as (Hin & Hf & _). by split.
  - intros Hnone v Hin Hf.
    destruct (lookupVersion_None _ _ _ Hnone v Hin Hf) as (j & Hj & _). discriminate.
Qed.

(** X5.  When the project has the flow record, [getOne] returns a Flow and
    does not throw: the Flow has the id and the project asked for and the
    folder of the record.  Its version is a stored version of that flow, with
    the identity asked for when one is; and when no stored version fits, the
    Flow is returned all the same, with a null version. *)
Theorem getOne_resolves_version p id vid inc w r :
  lookupFlow w p id = Some r ->
  exists fl,
    outcome (flowService.getOne p id vid inc w) = Returned (Some fl)
    /\ flow_id fl = id
    /\ flow_projectId fl = p
    /\ flow_folderId fl = rec_folderId r
    /\ (forall v, flow_version fl = Some v ->
          v ∈ versions w /\ fv_flowId v = id /\ forall j, vid = Some j -> fv_id v = j)
    /\ (flow_version fl = None
        <-> forall v, v ∈ versions w -> fv_flowId v = id ->
                      exists j, vid = Some j /\ fv_id v ≠ j).
Proof.
  intros Hr. rewrite getOne_run, Hr. eexists. split; [reflexivity|]. simpl.
  apply lookupFlow_Some in Hr as (Hrow & Hid & Hp).
  split; [exact Hid|]. split; [exact Hp|]. split; [reflexivity|]. split.
  - intros v Hv. by apply lookupVersion_Some in Hv.
  - split.
    + intros Hnone. by apply lookupVersion_None.
    + intros Hno. destruct (lookupVersion w id vid) as [v|] eqn:Hv; [|reflexivity].
      apply lookupVersion_Some in Hv as (Hin & Hf & Hj).
      destruct (Hno v Hin Hf) as (j & -> & Hne). exfalso. apply Hne. by apply Hj.
Qed.

(** ** [update] on a flow that is there *)

Lemma update_try_calls p f (req : FlowOperationRequest Operation) r w :
  exists calls,
    trace (final (update_try apId operate p f req r w)) = trace w ++ calls
    /\ Forall (fun e => is_lock_event e = false) calls.
Proof.
  unfold update_try. destruct req as [fo|op].
  - exists [EvRepoUpdate (rec_id r)]. unfold repo_update. simpl.
    destruct (flows w !! rec_id r); (split; [reflexivity | repeat constructor]).
  - unfold bind, getFlowVersion, throw, ret, flowService.createVersion,
      flowService.applyOperation. simpl.
    destruct (lookupVersion w f None) as [v|].
    + destruct (fv_state v); simpl.
      * destruct (operate op v); simpl; eexists [_; _]; rewrite <- !app_assoc;
          (split; [reflexivity | repeat constructor]).
      * destruct (operate op _); simpl; eexists [_; _; _]; rewrite <- !app_assoc;
          (split; [reflexivity | repeat constructor]).
    + eexists [_]. split; [reflexivity | repeat constructor].
Qed.

(** The [try] block leaves a record of the flow in the project in place. *)
Lemma update_try_keeps_flow p f (req : FlowOperationRequest Operation) r w :
  lookupFlow w p f = Some r ->
  lookupFlow (final (update_try apId operate p f req r (loaded p f w))) p f
  = Some {| rec_id := f; rec_projectId := p;
            rec_folderId := match req with
                            | CHANGE_FOLDER fo => fo
                            | VersionOperation _ => rec_folderId r
                            end |}.
Proof.
  intros Hr. pose proof Hr as Hr'. apply lookupFlow_Some in Hr' as (Hrow & Hid & Hp).
  destruct req as [fo|op].
  - unfold lookupFlow. rewrite (update_try_change_folder apId _ operate _ _ _ _ _ Hr).
    rewrite lookup_insert_eq. simpl. rewrite Hp.
    destruct (decide (p = p)); [reflexivity | contradiction].
  - destruct (update_try_frame apId _ operate p f (VersionOperation op) r (loaded p f w))
      as (_ & _ & Hf).
    unfold lookupFlow. rewrite Hf. simpl. fold (lookupFlow w p f). rewrite Hr.
    destruct r; simpl in *. by subst.
Qed.

(** The whole run of an [update] that holds the lock and has found the flow,
    from the run of its [try] block. *)
Lemma update_found_full p f (req : FlowOperationRequest Operation) w r :
  f ∉ locks w -> lookupFlow w p f = Some r ->
  let tried := update_try apId operate p f req r (loaded p f w) in
  let r' := {| rec_id := f; rec_projectId := p;
               rec_folderId := match req with
                               | CHANGE_FOLDER fo => fo
                               | VersionOperation _ => rec_folderId r
                               end |} in
  flowService.update apId operate p f req w
  = match outcome tried with
    | Returned _ =>
        (Returned (Some (flowService.formatFlow r'
                           (lookupVersion (final tried) f None)
                           (lookupInstance w p f))),
         log (EvInstanceGet p f)
           (log (EvGetFlowVersion f)
              (log (EvRepoFindOneBy p f) (released f (final tried)))))
    | Thrown e => (Thrown e, released f (final tried))
    end.
Proof.
  intros Hl Hr tried r'. rewrite (update_found_run apId _ operate _ _ _ _ _ Hl Hr).
  cbv zeta. fold tried. destruct (outcome tried) as [u|e]; [|reflexivity].
  rewrite getOne_run.
  change (lookupFlow (released f (final tried)) p f) with (lookupFlow (final tried) p f).
  unfold tried at 1. rewrite (update_try_keeps_flow _ _ _ _ _ Hr). fold r'.
  destruct (update_try_frame apId _ operate p f req r (loaded p f w)) as (_ & Hi & _).
  fold tried in Hi.
  change (lookupInstance (released f (final tried)) p (rec_id r'))
    with (match instances (final tried) !! f with
          | Some i => if decide (inst_projectId i = p) then Some i else None
          | None => None
          end).
  rewrite Hi. reflexivity.
Qed.

Lemma released_after_try p f (req : FlowOperationRequest Operation) r w :
  f ∉ locks w ->
  locks (released f (final (update_try apId operate p f req r (loaded p f w))))
  = locks w.
Proof.
  intros Hl.
  destruct (update_try_frame apId _ operate p f req r (loaded p f w)) as (Hk & _).
  unfold released. simpl. rewrite Hk. unfold loaded. simpl. apply set_eq. intros x.
  rewrite elem_of_difference, elem_of_union, !elem_of_singleton.
  split; [tauto|]. intros Hx. split; [tauto|]. congruence.
Qed.

(** X6.  An [update] that obtains the lock and finds the flow record gives
    the lock back, whether its [try] block returns or throws: the lock table
    ends as it began, and the calls run in this order: the acquisition, the
    lookup, the calls of the [try] block, none of them on the lock service,
    the release, and then, only when the block has returned, the read of
    the flow that is returned, which is made after the release. *)
Theorem update_lock_discipline p f (req : FlowOperationRequest Operation) w r :
  f ∉ locks w -> lookupFlow w p f = Some r ->
  let run := flowService.update apId operate p f req w in
  locks (final run) = locks w
  /\ exists calls,
       Forall (fun e => is_lock_event e = false) calls
       /\ trace (final run)
          = trace w ++ [EvAcquireLock f 5000; EvRepoFindOneBy p f] ++ calls
            ++ EvRelease f :: match outcome run with
                              | Returned _ => read_back p f
                              | Thrown _ => []
                              end.
Proof.
  intros Hl Hr run. subst run. rewrite (update_found_full _ _ _ _ _ Hl Hr). cbv zeta.
  destruct (update_try_frame apId _ operate p f req r (loaded p f w)) as (Hk & _).
  destruct (update_try_calls p f req r (loaded p f w)) as (calls & Htr & Hno).
  pose proof (released_after_try p f req r w Hl) as Hlocks.
  destruct (outcome (update_try apId operate p f req r (loaded p f w))) as [u|e].
  - split; [exact Hlocks|]. exists calls. split; [exact Hno|].
    simpl. rewrite Htr. simpl. rewrite <- !app_assoc. reflexivity.
  - split; [exact Hlocks|]. exists calls. split; [exact Hno|].
    simpl. rewrite Htr. simpl. rewrite <- !app_assoc. reflexivity.
Qed.

Lemma update_try_change_folder_returns p f fo r w :
  outcome (update_try apId operate p f (CHANGE_FOLDER fo) r w) = Returned tt.
Proof.
  unfold update_try, repo_update. simpl. destruct (flows w !! rec_id r); reflexivity.
Qed.

Lemma update_try_outcome p f op r w v :
  lookupVersion w f None = Some v ->
  outcome (update_try apId operate p f (VersionOperation op) r (loaded p f w))
  = match operate op (edited apId w f v) with
    | Returned _ => Returned tt
    | Thrown e => Thrown e
    end.
Proof.
  intros Hv. unfold update_try, bind, getFlowVersion.
  change (lookupVersion (loaded p f w) f None) with (lookupVersion w f None).
  rewrite Hv. cbv beta iota. unfold edited.
  destruct (fv_state v).
  - unfold ret, flowService.applyOperation. cbv beta iota zeta.
    destruct (operate op v); reflexivity.
  - unfold flowService.createVersion, flowService.applyOperation. cbv beta iota zeta.
    change (apId (usedIds (log (EvGetFlowVersion f) (loaded p f w))))
      with (apId (usedIds w)).
    match goal with
    | |- context [operate op ?x] => change x with (forked apId w f v)
    end.
    destruct (operate op (forked apId w f v)); reflexivity.
Qed.

Lemma update_try_no_version p f op r w :
  lookupVersion w f None = None ->
  update_try apId operate p f (VersionOperation op) r (loaded p f w)
  = (Thrown TYPE_ERROR, log (EvGetFlowVersion f) (loaded p f w)).
Proof.
  intros Hv. unfold update_try, bind, getFlowVersion.
  change (lookupVersion (loaded p f w) f None) with (lookupVersion w f None).
  rewrite Hv. reflexivity.
Qed.

(** Replacing the versions that have the identity of the newest version of
    a flow by a version of that flow makes it the newest. *)
Lemma find_newest_replaced f (v v' : FlowVersion) (l : list FlowVersion) :
  fv_flowId v' = f ->
  List.find (fun x => bool_decide (fv_flowId x = f) && true) l = Some v ->
  List.find (fun x => bool_decide (fv_flowId x = f) && true)
    (map (fun x => if decide (fv_id x = fv_id v) then v' else x) l)
  = Some v'.
Proof.
  intros Hf'. induction l as [|x l IH]; simpl; [discriminate|].
  destruct (decide (fv_id x = fv_id v)) as [Hid|Hid].
  - intros _. rewrite bool_decide_eq_true_2 by exact Hf'. reflexivity.
  - destruct (bool_decide (fv_flowId x = f)); simpl.
    + intros [= ->]. contradiction.
    + exact IH.
Qed.

(** X7.  An [update] with a CHANGE_FOLDER request that obtains the lock and
    finds the flow record returns the flow with the folder asked for (null
    when the request names none), the version and the status it had. *)
Theorem update_change_folder_returns_flow p f fo w r :
  f ∉ locks w -> lookupFlow w p f = Some r ->
  outcome (flowService.update apId operate p f (CHANGE_FOLDER fo) w)
  = Returned (Some {| flow_id := f;
                      flow_projectId := p;
                      flow_folderId := fo;
                      flow_version := lookupVersion w f None;
                      flow_status := Some (statusOf w p f) |}).
Proof.
  intros Hl Hr. rewrite (update_found_full _ _ _ _ _ Hl Hr). cbv zeta.
  rewrite update_try_change_folder_returns.
  destruct (update_try_frame apId _ operate p f (CHANGE_FOLDER fo) r (loaded p f w))
    as (_ & _ & Hv).
  unfold lookupVersion. rewrite Hv. reflexivity.
Qed.

(** X8.  An [update] with an operation on the version that obtains the lock,
    finds the flow record and its current version, and whose operation
    succeeds, returns the flow with the version the operation produced: the
    current version with the new content, or, when the current version is
    LOCKED, its fork with the new content. *)
Theorem update_returns_operated_version p f op w r v t :
  f ∉ locks w -> lookupFlow w p f = Some r ->
  lookupVersion w f None = Some v ->
  operate op (edited apId w f v) = Returned t ->
  outcome (flowService.update apId operate p f (VersionOperation op) w)
  = Returned (Some {| flow_id := f;
                      flow_projectId := p;
                      flow_folderId := rec_folderId r;
                      flow_version := Some (flowService.with_content (edited apId w f v) t);
                      flow_status := Some (statusOf w p f) |}).
Proof.
  intros Hl Hr Hv Hop. rewrite (update_found_full _ _ _ _ _ Hl Hr). cbv zeta.
  rewrite (update_try_outcome _ _ _ _ _ _ Hv), Hop.
  assert (Hnew : lookupVersion
                   (final (update_try apId operate p f (VersionOperation op) r
                             (loaded p f w))) f None
                 = Some (flowService.with_content (edited apId w f v) t)).
  { unfold lookupVersion at 1.
    rewrite (update_try_versions apId _ operate _ _ _ _ _ _ Hv).
    pose proof (lookupVersion_Some _ _ _ _ Hv) as (_ & Hfv & _).
    unfold edited in *. destruct (fv_state v).
    - rewrite Hop. apply find_newest_replaced; [exact Hfv | exact Hv].
    - cbv zeta. rewrite Hop. simpl.
      rewrite decide_True by reflexivity. simpl.
      rewrite bool_decide_eq_true_2 by reflexivity. reflexivity. }
  rewrite Hnew. reflexivity.
Qed.

(** X9.  When the current version is LOCKED and the operation fails on its
    fork, [update] fails with the error of the operation and gives the lock
    back, but the fork stays: the version table has one more version, a
    DRAFT with the content of the LOCKED one, and it is now the current
    version of the flow. *)
Theorem update_failed_operation_keeps_fork p f op w r v e :
  f ∉ locks w -> lookupFlow w p f = Some r ->
  lookupVersion w f None = Some v ->
  fv_state v = LOCKED ->
  operate op (forked apId w f v) = Thrown e ->
  let run := flowService.update apId operate p f (VersionOperation op) w in
  outcome run = Thrown e
  /\ locks (final run) = locks w
  /\ flows (final run) = flows w
  /\ versions (final run) = forked apId w f v :: versions w
  /\ lookupVersion (final run) f None = Some (forked apId w f v)
  /\ fv_state (forked apId w f v) = DRAFT
  /\ template_of (forked apId w f v) = template_of v.
Proof.
  intros Hl Hr Hv Hst Hop run. subst run.
  rewrite (update_found_full _ _ _ _ _ Hl Hr). cbv zeta.
  rewrite (update_try_outcome _ _ _ _ _ _ Hv). unfold edited. rewrite Hst, Hop.
  destruct (update_try_frame apId _ operate p f (VersionOperation op) r (loaded p f w))
    as (Hk & _ & Hf).
  pose proof (update_try_versions apId _ operate p f op r w v Hv) as Hvs.
  rewrite Hst in Hvs. cbv zeta in Hvs. rewrite Hop in Hvs.
  split; [reflexivity|].
  split; [exact (released_after_try p f (VersionOperation op) r w Hl)|].
  split; [exact Hf|]. split; [exact Hvs|]. split.
  { assert (Hrel : forall x, versions (released f x) = versions x) by reflexivity.
    unfold lookupVersion. unfold final at 1. cbn [snd]. rewrite Hrel, Hvs. simpl.
    rewrite bool_decide_eq_true_2 by reflexivity. reflexivity. }
  split; reflexivity.
Qed.

(** X10.  An [update] with an operation on the version, for a flow that has
    no version at all, fails on reading the state of the missing version: it
    throws (a TypeError), changes no table and gives the lock back. *)
Theorem update_without_version_throws p f op w r :
  f ∉ locks w -> lookupFlow w p f = Some r ->
  lookupVersion w f None = None ->
  let run := flowService.update apId operate p f (VersionOperation op) w in
  outcome run = Thrown TYPE_ERROR
  /\ same_stores w (final run)
  /\ trace (final run)
     = trace w ++ [EvAcquireLock f 5000; EvRepoFindOneBy p f;
                   EvGetFlowVersion f; EvRelease f].
Proof.
  intros Hl Hr Hv run. subst run.
  rewrite (update_found_full _ _ _ _ _ Hl Hr). cbv zeta.
  pose proof (released_after_try p f (VersionOperation op) r w Hl) as Hlocks.
  rewrite (update_try_no_version _ _ _ _ _ Hv) in *. simpl.
  split; [reflexivity|]. split.
  - repeat split. exact Hlocks.
  - rewrite <- !app_assoc. reflexivity.
Qed.

(** ** Folders *)

Lemma elem_of_selectRows w p q r :
  r ∈ selectRows w (flowService.queryWhere p q)
  <-> flows w !! rec_id r = Some (row_of r)
      /\ rec_projectId r = p /\ accepts q (rec_folderId r).
Proof.
  unfold selectRows. rewrite list_elem_of_filter, matches_accepts, elem_of_rows. tauto.
Qed.

Lemma selectRows_accepts w p q :
  selectRows w (flowService.queryWhere p q)
  = filter (fun x => rec_projectId x = p /\ accepts q (rec_folderId x)) (rows w).
Proof. unfold selectRows. apply list_filter_iff. intros x. apply matches_accepts. Qed.

Lemma rows_with_key (m : gmap FlowId FlowRow) id row :
  map (fun kv => record kv.1 kv.2) (map_to_list (<[id := row]> m))
  ≡ₚ record id row :: map (fun kv => record kv.1 kv.2) (map_to_list (delete id m)).
Proof.
  rewrite <- (insert_delete_eq m).
  change (record id row
            :: map (fun kv => record kv.1 kv.2) (map_to_list (delete id m)))
    with (map (fun kv : FlowId * FlowRow => record kv.1 kv.2)
            ((id, row) :: map_to_list (delete id m))).
  apply Permutation_map. apply map_to_list_insert. apply lookup_delete_eq.
Qed.

(** X11.  After an [update] with a CHANGE_FOLDER request that obtains the
    lock and finds the flow record, [count] counts and [list] pages over the
    flows of the project that the folder filter accepts in the new flow
    table: the flow moved is among them exactly when the filter accepts its
    new folder, every other flow exactly when it was before, and the count
    moves by one accordingly.  A flow moved to a folder named 'NULL' is among
    them for no folder filter at all. *)
Theorem change_folder_moves_flow p f fo w r c limit q :
  f ∉ locks w -> lookupFlow w p f = Some r ->
  let w' := final (flowService.update apId operate p f (CHANGE_FOLDER fo) w) in
  let moved := {| rec_id := f; rec_projectId := p; rec_folderId := fo |} in
  let sel := filter (fun x => rec_projectId x = p /\ accepts q (rec_folderId x)) (rows w) in
  let sel' := filter (fun x => rec_projectId x = p /\ accepts q (rec_folderId x)) (rows w') in
  outcome (flowService.count p q w) = Returned (length sel)
  /\ outcome (flowService.count p q w') = Returned (length sel')
  /\ outcome (flowService.list paginate p c limit q w')
     = Returned {| data := map (composed w' p) (data (paginate limit c sel'));
                   next := next (paginate limit c sel');
                   previous := previous (paginate limit c sel') |}
  /\ (moved ∈ sel' <-> accepts q fo)
  /\ (forall r', rec_id r' ≠ f -> r' ∈ sel' <-> r' ∈ sel)
  /\ (forall r', r' ∈ sel' -> rec_id r' = f -> r' = moved)
  /\ (length sel' + (if decide (accepts q (rec_folderId r)) then 1 else 0)
      = length sel + (if decide (accepts q fo) then 1 else 0))%nat
  /\ (fo = Some "NULL" -> forall x, q = Some x -> moved ∉ sel').
Proof.
  intros Hl Hr w' moved sel sel'.
  assert (Hflows : flows w' = <[f := {| row_projectId := p; row_folderId := fo |}]> (flows w)).
  { destruct (update_found_stores apId _ operate p f (CHANGE_FOLDER fo) w r Hl Hr)
      as (Hf & _).
    subst w'. rewrite Hf, (update_try_change_folder apId _ operate _ _ _ _ _ Hr).
    apply lookupFlow_Some in Hr as (_ & _ & ->). reflexivity. }
  apply lookupFlow_Some in Hr as (Hrow & Hid & Hp).
  assert (Hin' : forall x, x ∈ sel' <-> flows w' !! rec_id x = Some (row_of x)
                                        /\ rec_projectId x = p /\ accepts q (rec_folderId x)).
  { intros x. unfold sel'. rewrite list_elem_of_filter, elem_of_rows. tauto. }
  assert (Hin : forall x, x ∈ sel <-> flows w !! rec_id x = Some (row_of x)
                                      /\ rec_projectId x = p /\ accepts q (rec_folderId x)).
  { intros x. unfold sel. rewrite list_elem_of_filter, elem_of_rows. tauto. }
  assert (Hmoved : moved ∈ sel' <-> accepts q fo).
  { rewrite Hin', Hflows. simpl. rewrite lookup_insert_eq. unfold row_of. simpl. tauto. }
  split; [by rewrite count_run, selectRows_accepts|].
  split; [by rewrite count_run, selectRows_accepts|].
  split.
  { destruct (list_run_log p c limit q w') as (w2 & Hrun & _).
    rewrite selectRows_accepts in Hrun. fold sel' in Hrun. by rewrite Hrun. }
  split; [exact Hmoved|]. split.
  { intros r' Hne. rewrite Hin', Hin, Hflows, lookup_insert_ne by congruence.
    reflexivity. }
  split.
  { intros r' Hr' Hf. apply Hin' in Hr' as (Hrow' & Hp' & _).
    rewrite Hflows, Hf, lookup_insert_eq in Hrow'.
    destruct r' as [i rp rf]. unfold row_of in Hrow'. simpl in *.
    injection Hrow' as _ Hfo. unfold moved. by subst. }
  split.
  { unfold sel, sel', rows. rewrite Hflows.
    rewrite (rows_with_key (flows w) f {| row_projectId := p; row_folderId := fo |}).
    rewrite <- (map_to_list_delete (flows w) f (row_of r) Hrow).
    cbn [map fst snd]. rewrite !filter_cons.
    destruct (decide (accepts q (rec_folderId r))) as [Ho|Ho];
      destruct (decide (accepts q fo)) as [Hn|Hn].
    - rewrite !decide_True by (simpl; tauto). simpl. lia.
    - rewrite (decide_True (P := rec_projectId (record f (row_of r)) = p /\ _))
        by (simpl; tauto).
      rewrite (decide_False (P := rec_projectId (record f _) = p /\ accepts q fo))
        by (simpl; tauto).
      simpl. lia.
    - rewrite (decide_False (P := rec_projectId (record f (row_of r)) = p /\ _))
        by (simpl; tauto).
      rewrite (decide_True (P := rec_projectId (record f _) = p /\ accepts q fo))
        by (simpl; tauto).
      simpl. lia.
    - rewrite !decide_False by (simpl; tauto). simpl. lia. }
  intros -> x -> Hmem. apply Hmoved in Hmem. unfold accepts in Hmem.
  destruct (decide (x = "NULL")); [discriminate | congruence].
Qed.

(** ** A flow the project does not have *)

Lemma delete_stores p f w :
  let w1 := final (flowService.delete p f w) in
  outcome (flowService.delete p f w) = Returned tt
  /\ locks w1 = locks w
  /\ flows w1 = match lookupFlow w p f with
                | Some _ => delete f (flows w)
                | None => flows w
                end
  /\ versions w1 = match lookupFlow w p f with
                   | Some _ => filter (fun v => fv_flowId v ≠ f) (versions w)
                   | None => versions w
                   end
  /\ instances w1 = match lookupFlow w p f, lookupInstance w p f with
                    | None, None => instances w
                    | _, _ => delete f (instances w)
                    end.
Proof.
  unfold flowService.delete, bind, onFlowDelete, repo_delete, lookupFlow, lookupInstance.
  simpl.
  destruct (instances w !! f) as [i|]; [destruct (decide (inst_projectId i = p))|];
    simpl; (destruct (flows w !! f) as [row|];
            [destruct (decide (row_projectId row = p))|]); simpl;
    repeat split; by rewrite ?delete_delete_eq.
Qed.

(** X12.  When the project has no flow record with the id, also when the id
    is that of a flow of another project, [update] throws and changes no
    flow record, no version and no instance, and the lock of the flow is held
    when it has returned; [delete] returns without an error, removes no flow
    record and no version and leaves the locks as they are. *)
Theorem flow_of_no_or_other_project_untouched p f (req : FlowOperationRequest Operation) w :
  lookupFlow w p f = None ->
  (exists e, outcome (flowService.update apId operate p f req w) = Thrown e
             /\ (e = FLOW_NOT_FOUND f \/ e = LOCK_TIMEOUT f))
  /\ flows (final (flowService.update apId operate p f req w)) = flows w
  /\ versions (final (flowService.update apId operate p f req w)) = versions w
  /\ instances (final (flowService.update apId operate p f req w)) = instances w
  /\ locks (final (flowService.update apId operate p f req w)) = {[f]} ∪ locks w
  /\ outcome (flowService.delete p f w) = Returned tt
  /\ flows (final (flowService.delete p f w)) = flows w
  /\ versions (final (flowService.delete p f w)) = versions w
  /\ locks (final (flowService.delete p f w)) = locks w.
Proof.
  intros Hr.
  destruct (delete_stores p f w) as (Ho & Hk & Hf & Hv & _). rewrite Hr in Hf, Hv.
  destruct (decide (f ∈ locks w)) as [Hin|Hl].
  - rewrite update_after_lock. unfold bind. rewrite (acquireLock_held _ _ _ Hin).
    split; [eexists; split; [reflexivity | by right]|].
    split; [reflexivity|]. split; [reflexivity|]. split; [reflexivity|].
    split; [|repeat split; assumption].
    simpl. apply set_eq. intros x. rewrite elem_of_union, elem_of_singleton.
    split; [tauto|]. intros [->|Hx]; assumption.
  - rewrite (update_not_found_run apId _ operate _ _ _ _ Hl Hr).
    split; [eexists; split; [reflexivity | by left]|]. repeat split; assumption.
Qed.

(** ** [delete] *)

(** X13.  [delete] does not use the lock of the flow: it leaves the lock
    table alone and does the same whether the lock is held or not.  It
    touches no other flow record, and a second [delete] of the same flow
    changes nothing any more. *)
Theorem delete_takes_no_lock p f w :
  let w1 := final (flowService.delete p f w) in
  locks w1 = locks w
  /\ (forall k, k ≠ f -> flows w1 !! k = flows w !! k)
  /\ (forall held,
        let w1' := final (flowService.delete p f (set_locks held w)) in
        outcome (flowService.delete p f (set_locks held w)) = Returned tt
        /\ flows w1' = flows w1 /\ versions w1' = versions w1
        /\ instances w1' = instances w1)
  /\ (let w2 := final (flowService.delete p f w1) in
      flows w2 = flows w1 /\ versions w2 = versions w1 /\ instances w2 = instances w1).
Proof.
  intros w1.
  destruct (delete_stores p f w) as (_ & Hk & Hf & Hv & Hi). fold w1 in Hk, Hf, Hv, Hi.
  split; [exact Hk|]. split.
  { intros k Hne. rewrite Hf. destruct (lookupFlow w p f); [|reflexivity].
    by rewrite lookup_delete_ne. }
  split.
  { intros held w1'.
    destruct (delete_stores p f (set_locks held w)) as (Ho' & _ & Hf' & Hv' & Hi').
    fold w1' in Hf', Hv', Hi'.
    split; [exact Ho'|]. rewrite Hf, Hv, Hi, Hf', Hv', Hi'. repeat split. }
  intros w2.
  destruct (delete_stores p f w1) as (_ & _ & Hf2 & Hv2 & Hi2). fold w2 in Hf2, Hv2, Hi2.
  assert (Hgone : lookupFlow w1 p f = None).
  { unfold lookupFlow. rewrite Hf. destruct (lookupFlow w p f) eqn:Hr.
    - by rewrite lookup_delete_eq.
    - exact Hr. }
  assert (Hinst : lookupInstance w1 p f = None).
  { unfold lookupInstance. rewrite Hi.
    destruct (lookupFlow w p f); [by rewrite lookup_delete_eq|].
    destruct (lookupInstance w p f) eqn:Hli; [by rewrite lookup_delete_eq | exact Hli]. }
  rewrite Hgone in Hf2, Hv2, Hi2. rewrite Hinst in Hi2. repeat split; assumption.
Qed.

(** ** [create] *)

Lemma create_stores p req w :
  let id := apId (usedIds w) in
  let w' := final (flowService.create apId p req w) in
  flows w' = <[id := {| row_projectId := p; row_folderId := req_folderId req |}]> (flows w)
  /\ instances w' = instances w
  /\ locks w' = locks w
  /\ (exists v, versions w' = v :: versions w /\ fv_flowId v = id)
  /\ exists fl, outcome (flowService.create apId p req w) = Returned fl
                /\ flow_id fl = id /\ flow_projectId fl = p
                /\ flow_folderId fl = req_folderId req /\ flow_status fl = None.
Proof.
  unfold flowService.create, bind, repo_save, flowService.createVersion,
    getFlowVersion, trackProject, ret. simpl.
  repeat split; eauto 10.
Qed.

Lemma apId_not_a_flow w :
  (forall l, apId l ∉ l) -> flows w !! (apId (usedIds w) : FlowId) = None.
Proof.
  intros Hfresh. apply not_elem_of_dom. intros Hin.
  apply (Hfresh (usedIds w)). unfold usedIds. apply elem_of_app. right.
  by apply elem_of_elements.
Qed.

Lemma rows_insert_fresh (m : gmap FlowId FlowRow) id row :
  m !! id = None ->
  map (fun kv => record kv.1 kv.2) (map_to_list (<[id := row]> m))
  ≡ₚ record id row :: map (fun kv => record kv.1 kv.2) (map_to_list m).
Proof.
  intros Hnone.
  change (record id row :: map (fun kv => record kv.1 kv.2) (map_to_list m))
    with (map (fun kv : FlowId * FlowRow => record kv.1 kv.2) ((id, row) :: map_to_list m)).
  apply Permutation_map. by apply map_to_list_insert.
Qed.

(** X14.  With identities that are not in use, [create] adds one flow record,
    in the project and the folder of the request, and overwrites none; it
    leaves the instances and the locks alone; the Flow it returns has that
    id, project and folder and no status; and afterwards [count] of the
    project is one more for the folder filters that accept the folder of the
    new flow, and as before for the others. *)
Theorem create_adds_one_flow p req w :
  (forall l, apId l ∉ l) ->
  let id := apId (usedIds w) in
  let w' := final (flowService.create apId p req w) in
  flows w !! id = None
  /\ flows w' !! id = Some {| row_projectId := p; row_folderId := req_folderId req |}
  /\ (forall k, k ≠ id -> flows w' !! k = flows w !! k)
  /\ instances w' = instances w
  /\ locks w' = locks w
  /\ (exists fl, outcome (flowService.create apId p req w) = Returned fl
                 /\ flow_id fl = id /\ flow_projectId fl = p
                 /\ flow_folderId fl = req_folderId req /\ flow_status fl = None)
  /\ forall q n, outcome (flowService.count p q w) = Returned n ->
       outcome (flowService.count p q w')
       = Returned (if decide (accepts q (req_folderId req)) then S n else n).
Proof.
  intros Hfresh id w'.
  destruct (create_stores p req w) as (Hf & Hi & Hk & _ & Hfl).
  fold id in Hf, Hfl. fold w' in Hf, Hi, Hk.
  pose proof (apId_not_a_flow w Hfresh) as Hnone. fold id in Hnone.
  split; [exact Hnone|]. split; [by rewrite Hf, lookup_insert_eq|].
  split; [intros k Hne; by rewrite Hf, lookup_insert_ne|].
  split; [exact Hi|]. split; [exact Hk|]. split; [exact Hfl|].
  intros q n. rewrite !count_run. intros [= <-]. simpl. f_equal.
  unfold selectRows, rows. rewrite Hf.
  rewrite (rows_insert_fresh _ _ _ Hnone), filter_cons.
  destruct (decide (accepts q (req_folderId req))) as [Hacc|Hacc].
  - rewrite decide_True; [reflexivity|]. apply matches_accepts. by split.
  - rewrite decide_False; [reflexivity|]. rewrite matches_accepts. simpl. tauto.
Qed.

(** X15.  With identities that are not in use, a [create] followed by a
    [delete] of the flow created brings the flow table back to what it was:
    the flow can no longer be read, and [count] returns what it returned
    before the two. *)
Theorem create_then_delete_restores_flows p req w :
  (forall l, apId l ∉ l) ->
  let id := apId (usedIds w) in
  let w1 := final (flowService.create apId p req w) in
  let w2 := final (flowService.delete p id w1) in
  flows w2 = flows w
  /\ (forall vid inc, outcome (flowService.getOne p id vid inc w2) = Returned None)
  /\ forall q, outcome (flowService.count p q w2) = outcome (flowService.count p q w).
Proof.
  intros Hfresh id w1 w2.
  destruct (create_stores p req w) as (Hf & _). fold id w1 in Hf.
  pose proof (apId_not_a_flow w Hfresh) as Hnone. fold id in Hnone.
  destruct (delete_stores p id w1) as (_ & _ & Hf2 & _). fold w2 in Hf2.
  assert (Hthere : lookupFlow w1 p id
                   = Some {| rec_id := id; rec_projectId := p;
                             rec_folderId := req_folderId req |}).
  { apply lookupFlow_Some. split; [|split; reflexivity].
    cbn [rec_id]. rewrite Hf. apply lookup_insert_eq. }
  rewrite Hthere in Hf2. clear Hthere. clearbody w2. clearbody w1. clearbody id.
  assert (Hback : flows w2 = flows w).
  { rewrite Hf2, Hf, delete_insert_eq. by apply delete_id. }
  split; [exact Hback|]. split.
  - intros vid inc. rewrite getOne_run. unfold lookupFlow. rewrite Hback, Hnone.
    reflexivity.
  - intros q. rewrite !count_run. unfold selectRows, rows. rewrite Hback. reflexivity.
Qed.

(** ** Edges *)

(** X16.  When the folder filter selects no flow of the project, [count]
    returns 0 and [list], with a paginator that returns rows it was given,
    returns an empty page after its one query: it asks for no version and no
    instance. *)
Theorem list_of_nothing_is_empty p c limit fo w :
  (forall lim cur l r, r ∈ data (paginate lim cur l) -> r ∈ l) ->
  selectRows w (flowService.queryWhere p fo) = [] ->
  outcome (flowService.count p fo w) = Returned 0%nat
  /\ (exists page, outcome (flowService.list paginate p c limit fo w) = Returned page
                   /\ data page = [])
  /\ trace (final (flowService.list paginate p c limit fo w)) = trace w ++ [EvRepoQuery].
Proof.
  intros Hsound Hsel.
  assert (Hpage : data (paginate limit c (selectRows w (flowService.queryWhere p fo))) = []).
  { rewrite Hsel. destruct (data (paginate limit c [])) as [|r l] eqn:Hd; [reflexivity|].
    exfalso. apply (not_elem_of_nil r). apply (Hsound limit c []).
    rewrite Hd. apply list_elem_of_here. }
  destruct (list_run_log p c limit fo w) as (w' & Hrun & _ & Htr).
  rewrite Hpage in Hrun, Htr. rewrite count_run, Hsel, Hrun.
  split; [reflexivity|]. split; [eexists; split; reflexivity|]. exact Htr.
Qed.

(** X17.  What [update] returns is what a read of the flow right after it
    returns, and an [update] that runs alone never returns null: it returns
    a Flow or it throws. *)
Theorem update_result_is_readable p f (req : FlowOperationRequest Operation) w o :
  outcome (flowService.update apId operate p f req w) = Returned o ->
  exists fl,
    o = Some fl
    /\ flow_id fl = f
    /\ flow_projectId fl = p
    /\ outcome (flowService.getOne p f None false
                  (final (flowService.update apId operate p f req w)))
       = Returned (Some fl)
    /\ outcome (flowService.getOneOrThrow p f
                  (final (flowService.update apId operate p f req w)))
       = Returned fl.
Proof.
  destruct (decide (f ∈ locks w)) as [Hin|Hl].
  { rewrite update_after_lock. unfold bind. rewrite (acquireLock_held _ _ _ Hin).
    discriminate. }
  destruct (lookupFlow w p f) as [r|] eqn:Hr.
  2: { rewrite (update_not_found_run apId _ operate _ _ _ _ Hl Hr). discriminate. }
  rewrite (update_found_full _ _ _ _ _ Hl Hr). cbv zeta.
  pose proof (update_try_keeps_flow p f req r w Hr) as Hkeep.
  destruct (update_try_frame apId _ operate p f req r (loaded p f w)) as (_ & Hi & _).
  set (tried := update_try apId operate p f req r (loaded p f w)) in *.
  destruct (outcome tried) as [u|e]; [|discriminate].
  intros [= <-]. eexists. split; [reflexivity|]. split; [reflexivity|].
  split; [reflexivity|].
  set (w' := log (EvInstanceGet p f)
               (log (EvGetFlowVersion f)
                  (log (EvRepoFindOneBy p f) (released f (final tried))))).
  assert (Hflow : lookupFlow w' p f = lookupFlow (final tried) p f) by reflexivity.
  assert (Hinst : lookupInstance w' p f = lookupInstance w p f).
  { unfold lookupInstance. change (instances w') with (instances (final tried)).
    by rewrite Hi. }
  assert (Hvers : lookupVersion w' f None = lookupVersion (final tried) f None)
    by reflexivity.
  unfold final at 1 4. cbn [snd]. fold w'.
  rewrite getOneOrThrow_run, getOne_run, Hflow, Hkeep. cbn [rec_id].
  rewrite Hinst, Hvers. split; reflexivity.
Qed.

End FurtherProperties.

(** * The service and the theorems at work on the sample worlds *)

Example create_in_empty_world :
  outcome (flowService.create Sample.apId "p1"
             {| req_displayName := "First flow"; req_folderId := None |} Sample.emptyWorld)
  = Returned {| flow_id := "0"; flow_projectId := "p1"; flow_folderId := None;
                flow_version := Some {| fv_id := "1"; fv_flowId := "0";
                                        fv_displayName := "First flow";
                                        fv_trigger := flowService.emptyTrigger;
                                        fv_valid := false; fv_state := DRAFT |};
                flow_status := None |}.
Proof. vm_compute. reflexivity. Qed.

Example update_forks_published_version :
  let w' := final (flowService.update Sample.apId Sample.operate "p1" "f1"
                     (VersionOperation (Sample.Rename "Welcome mail 2")) Sample.world) in
  map (fun v => (fv_id v, fv_displayName v, fv_state v)) (versions w')
  = [("0", "Welcome mail 2", DRAFT); ("v1", "Welcome mail", LOCKED)]
  /\ trace w'
     = [EvAcquireLock "f1" 5000; EvRepoFindOneBy "p1" "f1"; EvGetFlowVersion "f1";
        EvCreateVersion "f1" "0"; EvApplyOperation "0"; EvRelease "f1";
        EvRepoFindOneBy "p1" "f1"; EvGetFlowVersion "f1"; EvInstanceGet "p1" "f1"]
  /\ elements (locks w') = [].
Proof. vm_compute. repeat split. Qed.

Example update_failing_operation_releases_lock :
  let run := flowService.update Sample.apId Sample.operate "p1" "f1"
               (VersionOperation Sample.Broken) Sample.world in
  outcome run = Thrown (OTHER_ERROR "broken operation")
  /\ trace (final run)
     = [EvAcquireLock "f1" 5000; EvRepoFindOneBy "p1" "f1"; EvGetFlowVersion "f1";
        EvCreateVersion "f1" "0"; EvApplyOperation "0"; EvRelease "f1"]
  /\ elements (locks (final run)) = [].
Proof. vm_compute. repeat split. Qed.

Example update_unknown_flow_keeps_lock :
  let run := flowService.update Sample.apId Sample.operate "p1" "f9"
               (VersionOperation (Sample.Rename "x")) Sample.world in
  outcome run = Thrown (FLOW_NOT_FOUND "f9")
  /\ trace (final run) = [EvAcquireLock "f9" 5000; EvRepoFindOneBy "p1" "f9"]
  /\ elements (locks (final run)) = ["f9"].
Proof. vm_compute. repeat split. Qed.

Example list_first_page_of_unfiled :
  (fun page => (map flow_id (data page), next page))
    <$> match outcome (flowService.list Sample.firstPage "p1" None 1 (Some "NULL")
                         Sample.world) with
        | Returned page => Some page
        | Thrown _ => None
        end
  = Some (["f1"], Some "f1")
  /\ map rec_id (unfiled Sample.world "p1") = ["f1"; "f2"]
  /\ outcome (flowService.count "p1" (Some "f3") Sample.world) = Returned 0%nat
  /\ outcome (flowService.count "p1" None Sample.world) = Returned 3%nat.
Proof. vm_compute. repeat split. Qed.

Lemma apId_fresh l : Sample.apId l ∉ l.
Proof. apply infinite_is_fresh. Qed.

Lemma firstPage_sound lim cur (l : list FlowRecord) r :
  r ∈ data (Sample.firstPage lim cur l) -> r ∈ l.
Proof. simpl. apply subseteq_take. Qed.


(** C1 on the sample world: project p1 has no flow f9; the lock of f9 is
    taken and never released. *)
Lemma update_not_found_leaks_lock_witness :
  let run := flowService.update Sample.apId Sample.operate "p1" "f9"
               (CHANGE_FOLDER None) Sample.world in
  outcome run = Thrown (FLOW_NOT_FOUND "f9")
  /\ trace (final run) = [EvAcquireLock "f9" 5000; EvRepoFindOneBy "p1" "f9"]
  /\ "f9" ∈ locks (final run)
  /\ forall p' (req' : FlowOperationRequest Sample.Operation),
       outcome (flowService.update Sample.apId Sample.operate p' "f9" req' (final run))
       = Thrown (LOCK_TIMEOUT "f9").
Proof.
  apply (update_not_found_leaks_lock Sample.apId Sample.Operation Sample.operate
           "p1" "f9" (CHANGE_FOLDER None) Sample.world).
  - apply not_elem_of_empty.
  - reflexivity.
Defined.

(** C2 on the sample world: renaming the published flow f1 stores a renamed
    copy of its LOCKED version and keeps that version. *)
Lemma update_copy_on_write_witness :
  let w' := final (flowService.update Sample.apId Sample.operate "p1" "f1"
                     (VersionOperation (Sample.Rename "Welcome mail 2")) Sample.world) in
  let new := forked Sample.apId Sample.world "f1" Sample.publishedVersion in
  flows w' = flows Sample.world
  /\ (fv_id new ∉ map fv_id (versions Sample.world))
  /\ fv_id new ≠ fv_id Sample.publishedVersion
  /\ template_of new = template_of Sample.publishedVersion
  /\ versions w'
     = applied Sample.operate (Sample.Rename "Welcome mail 2") new :: versions Sample.world
  /\ Sample.publishedVersion ∈ versions w'.
Proof.
  apply (update_copy_on_write Sample.apId Sample.Operation Sample.operate
           "p1" "f1" (Sample.Rename "Welcome mail 2") Sample.world
           {| rec_id := "f1"; rec_projectId := "p1"; rec_folderId := None |}
           Sample.publishedVersion).
  - apply apId_fresh.
  - apply not_elem_of_empty.
  - reflexivity.
  - reflexivity.
Defined.

(** C3 on the sample world while the lock of f1 is held elsewhere. *)
Lemma update_acquires_lock_first_witness :
  let run := flowService.update Sample.apId Sample.operate "p1" "f1"
               (VersionOperation (Sample.Rename "Welcome mail 2")) Sample.busyWorld in
  outcome run = Thrown (LOCK_TIMEOUT "f1")
  /\ trace (final run) = [EvAcquireLock "f1" 5000]
  /\ same_stores Sample.busyWorld (final run).
Proof.
  apply (update_acquires_lock_first Sample.apId Sample.Operation Sample.operate
           "p1" "f1" (VersionOperation (Sample.Rename "Welcome mail 2")) Sample.busyWorld).
  reflexivity.
Defined.



(** C8 on the sample world: f1 is moved to the folder named archive. *)
Lemma update_change_folder_frame_witness :
  flows (final (flowService.update Sample.apId Sample.operate "p1" "f1"
                  (CHANGE_FOLDER (Some "archive")) Sample.world)) !! "f1"
  = Some {| row_projectId := "p1"; row_folderId := Some "archive" |}.
Proof.
  destruct (update_change_folder_frame Sample.apId Sample.Operation Sample.operate
              "p1" "f1" (Some "archive") Sample.world) as (_ & _ & _ & _ & _ & Hset).
  apply (Hset {| rec_id := "f1"; rec_projectId := "p1"; rec_folderId := None |}).
  - apply not_elem_of_empty.
  - reflexivity.
Defined.

(** C9 on the sample world: f2 has no instance, f1 has one. *)
Lemma read_status_defaults_to_unpublished_witness :
  flow_status (composed Sample.world "p1"
                 {| rec_id := "f2"; rec_projectId := "p1"; rec_folderId := None |})
  = Some UNPUBLISHED.
Proof.
  apply (read_status_defaults_to_unpublished Sample.firstPage "p1" Sample.world).
  - left. exists "f2", None, false. reflexivity.
  - reflexivity.
Defined.

(** C10 on the sample world: f3 is stored in the folder named NULL, and asking
    for that folder counts the two flows without folder. *)
Lemma null_literal_is_no_folder_sentinel_witness :
  outcome (flowService.count "p1" (Some "NULL") Sample.world)
  = Returned (length (unfiled Sample.world "p1")).
Proof.
  destruct (null_literal_is_no_folder_sentinel Sample.firstPage "p1" None 1 Sample.world
              firstPage_sound) as ((_ & Hcount) & _).
  exact Hcount.
Defined.

(** * The further properties at work on the sample worlds *)

(** X4 on the sample world: the one entry of the first page of the flows
    without folder is made from the row of f1. *)
Lemma list_entries_follow_rows_witness :
  let fl := composed Sample.world "p1"
              {| rec_id := "f1"; rec_projectId := "p1"; rec_folderId := None |} in
  exists r,
    data (Sample.firstPage 1 None
            (selectRows Sample.world (flowService.queryWhere "p1" (Some "NULL"))))
      !! 0%nat = Some r
    /\ flow_id fl = rec_id r
    /\ flow_projectId fl = rec_projectId r
    /\ flow_folderId fl = rec_folderId r
    /\ (forall v, flow_version fl = Some v ->
          v ∈ versions Sample.world /\ fv_flowId v = flow_id fl)
    /\ (flow_version fl = None ->
        forall v, v ∈ versions Sample.world -> fv_flowId v ≠ flow_id fl).
Proof.
  intros fl.
  apply (list_entries_follow_rows Sample.firstPage "p1" None 1 (Some "NULL") Sample.world
           {| data := [fl]; next := Some "f1"; previous := None |} 0%nat fl).
  - vm_compute. reflexivity.
  - reflexivity.
Defined.

(** X5 on the sample world: f2 has no version and is read with a null
    version. *)
Lemma getOne_resolves_version_witness :
  exists fl,
    outcome (flowService.getOne "p1" "f2" None false Sample.world) = Returned (Some fl)
    /\ flow_id fl = "f2"
    /\ flow_projectId fl = "p1"
    /\ flow_folderId fl = None
    /\ (forall v, flow_version fl = Some v ->
          v ∈ versions Sample.world /\ fv_flowId v = "f2"
          /\ forall j, @None FlowVersionId = Some j -> fv_id v = j)
    /\ (flow_version fl = None
        <-> forall v, v ∈ versions Sample.world -> fv_flowId v = "f2" ->
                      exists j, @None FlowVersionId = Some j /\ fv_id v ≠ j).
Proof.
  apply (getOne_resolves_version "p1" "f2" None false Sample.world
           {| rec_id := "f2"; rec_projectId := "p1"; rec_folderId := None |}).
  reflexivity.
Defined.

(** X6 on the sample world: renaming f1. *)
Lemma update_lock_discipline_witness :
  let run := flowService.update Sample.apId Sample.operate "p1" "f1"
               (VersionOperation (Sample.Rename "Welcome mail 2")) Sample.world in
  locks (final run) = locks Sample.world
  /\ exists calls,
       Forall (fun e => is_lock_event e = false) calls
       /\ trace (final run)
          = trace Sample.world ++ [EvAcquireLock "f1" 5000; EvRepoFindOneBy "p1" "f1"]
            ++ calls
            ++ EvRelease "f1" :: match outcome run with
                                 | Returned _ => read_back "p1" "f1"
                                 | Thrown _ => []
                                 end.
Proof.
  apply (update_lock_discipline Sample.apId Sample.Operation Sample.operate "p1" "f1"
           (VersionOperation (Sample.Rename "Welcome mail 2")) Sample.world
           {| rec_id := "f1"; rec_projectId := "p1"; rec_folderId := None |}).
  - apply not_elem_of_empty.
  - reflexivity.
Defined.

(** X7 on the sample world: f1 is moved to the folder named archive. *)
Lemma update_change_folder_returns_flow_witness :
  outcome (flowService.update Sample.apId Sample.operate "p1" "f1"
             (CHANGE_FOLDER (Some "archive")) Sample.world)
  = Returned (Some {| flow_id := "f1";
                      flow_projectId := "p1";
                      flow_folderId := Some "archive";
                      flow_version := lookupVersion Sample.world "f1" None;
                      flow_status := Some (statusOf Sample.world "p1" "f1") |}).
Proof.
  apply (update_change_folder_returns_flow Sample.apId Sample.Operation Sample.operate
           "p1" "f1" (Some "archive") Sample.world
           {| rec_id := "f1"; rec_projectId := "p1"; rec_folderId := None |}).
  - apply not_elem_of_empty.
  - reflexivity.
Defined.

(** X8 on the sample world: renaming the published f1 returns the renamed
    fork. *)
Lemma update_returns_operated_version_witness :
  let t := {| tpl_displayName := "Welcome mail 2";
              tpl_valid := true;
              tpl_trigger := fv_trigger Sample.publishedVersion |} in
  outcome (flowService.update Sample.apId Sample.operate "p1" "f1"
             (VersionOperation (Sample.Rename "Welcome mail 2")) Sample.world)
  = Returned (Some {| flow_id := "f1";
                      flow_projectId := "p1";
                      flow_folderId := None;
                      flow_version :=
                        Some (flowService.with_content
                                (edited Sample.apId Sample.world "f1"
                                   Sample.publishedVersion) t);
                      flow_status := Some (statusOf Sample.world "p1" "f1") |}).
Proof.
  intros t.
  apply (update_returns_operated_version Sample.apId Sample.Operation Sample.operate
           "p1" "f1" (Sample.Rename "Welcome mail 2") Sample.world
           {| rec_id := "f1"; rec_projectId := "p1"; rec_folderId := None |}
           Sample.publishedVersion t).
  - apply not_elem_of_empty.
  - reflexivity.
  - reflexivity.
  - reflexivity.
Defined.

(** X9 on the sample world: the broken operation on the published f1. *)
Lemma update_failed_operation_keeps_fork_witness :
  let run := flowService.update Sample.apId Sample.operate "p1" "f1"
               (VersionOperation Sample.Broken) Sample.world in
  let fork := forked Sample.apId Sample.world "f1" Sample.publishedVersion in
  outcome run = Thrown (OTHER_ERROR "broken operation")
  /\ locks (final run) = locks Sample.world
  /\ flows (final run) = flows Sample.world
  /\ versions (final run) = fork :: versions Sample.world
  /\ lookupVersion (final run) "f1" None = Some fork
  /\ fv_state fork = DRAFT
  /\ template_of fork = template_of Sample.publishedVersion.
Proof.
  apply (update_failed_operation_keeps_fork Sample.apId Sample.Operation Sample.operate
           "p1" "f1" Sample.Broken Sample.world
           {| rec_id := "f1"; rec_projectId := "p1"; rec_folderId := None |}
           Sample.publishedVersion (OTHER_ERROR "broken operation")).
  - apply not_elem_of_empty.
  - reflexivity.
  - reflexivity.
  - reflexivity.
  - reflexivity.
Defined.

(** X10 on the sample world: f2 has no version. *)
Lemma update_without_version_throws_witness :
  let run := flowService.update Sample.apId Sample.operate "p1" "f2"
               (VersionOperation (Sample.Rename "Second flow")) Sample.world in
  outcome run = Thrown TYPE_ERROR
  /\ same_stores Sample.world (final run)
  /\ trace (final run)
     = trace Sample.world ++ [EvAcquireLock "f2" 5000; EvRepoFindOneBy "p1" "f2";
                              EvGetFlowVersion "f2"; EvRelease "f2"].
Proof.
  apply (update_without_version_throws Sample.apId Sample.Operation Sample.operate
           "p1" "f2" (Sample.Rename "Second flow") Sample.world
           {| rec_id := "f2"; rec_projectId := "p1"; rec_folderId := None |}).
  - apply not_elem_of_empty.
  - reflexivity.
  - reflexivity.
Defined.

(** X11 on the sample world: f1 is moved to the folder named NULL and asked
    for in that folder. *)
Lemma change_folder_moves_flow_witness :
  let w' := final (flowService.update Sample.apId Sample.operate "p1" "f1"
                     (CHANGE_FOLDER (Some "NULL")) Sample.world) in
  let moved := {| rec_id := "f1"; rec_projectId := "p1"; rec_folderId := Some "NULL" |} in
  let q := Some "NULL" in
  let sel := filter (fun x => rec_projectId x = "p1" /\ accepts q (rec_folderId x))
               (rows Sample.world) in
  let sel' := filter (fun x => rec_projectId x = "p1" /\ accepts q (rec_folderId x))
                (rows w') in
  outcome (flowService.count "p1" q Sample.world) = Returned (length sel)
  /\ outcome (flowService.count "p1" q w') = Returned (length sel')
  /\ outcome (flowService.list Sample.firstPage "p1" None 10 q w')
     = Returned {| data := map (composed w' "p1") (data (Sample.firstPage 10 None sel'));
                   next := next (Sample.firstPage 10 None sel');
                   previous := previous (Sample.firstPage 10 None sel') |}
  /\ (moved ∈ sel' <-> accepts q (Some "NULL"))
  /\ (forall r', rec_id r' ≠ "f1" -> r' ∈ sel' <-> r' ∈ sel)
  /\ (forall r', r' ∈ sel' -> rec_id r' = "f1" -> r' = moved)
  /\ (length sel' + (if decide (accepts q None) then 1 else 0)
      = length sel + (if decide (accepts q (Some "NULL")) then 1 else 0))%nat
  /\ (Some "NULL" = Some "NULL" -> forall x, q = Some x -> moved ∉ sel').
Proof.
  apply (change_folder_moves_flow Sample.apId Sample.Operation Sample.operate
           Sample.firstPage "p1" "f1" (Some "NULL") Sample.world
           {| rec_id := "f1"; rec_projectId := "p1"; rec_folderId := None |}
           None 10 (Some "NULL")).
  - apply not_elem_of_empty.
  - reflexivity.
Defined.

(** X12 on the sample world: project p2 asks for f1, a flow of p1. *)
Lemma flow_of_no_or_other_project_untouched_witness :
  let req : FlowOperationRequest Sample.Operation := CHANGE_FOLDER (Some "archive") in
  let updated := final (flowService.update Sample.apId Sample.operate "p2" "f1" req
                          Sample.world) in
  let deleted := final (flowService.delete "p2" "f1" Sample.world) in
  (exists e, outcome (flowService.update Sample.apId Sample.operate "p2" "f1" req
                        Sample.world) = Thrown e
             /\ (e = FLOW_NOT_FOUND "f1" \/ e = LOCK_TIMEOUT "f1"))
  /\ flows updated = flows Sample.world
  /\ versions updated = versions Sample.world
  /\ instances updated = instances Sample.world
  /\ locks updated = {[ "f1" ]} ∪ locks Sample.world
  /\ outcome (flowService.delete "p2" "f1" Sample.world) = Returned tt
  /\ flows deleted = flows Sample.world
  /\ versions deleted = versions Sample.world
  /\ locks deleted = locks Sample.world.
Proof.
  intros req.
  apply (flow_of_no_or_other_project_untouched Sample.apId Sample.Operation
           Sample.operate "p2" "f1" req Sample.world).
  reflexivity.
Defined.

(** X14 on the sample world: a flow is created in the folder named archive. *)
Lemma create_adds_one_flow_witness :
  let req := {| req_displayName := "Second mail"; req_folderId := Some "archive" |} in
  let id := Sample.apId (usedIds Sample.world) in
  let w' := final (flowService.create Sample.apId "p1" req Sample.world) in
  flows Sample.world !! id = None
  /\ flows w' !! id = Some {| row_projectId := "p1"; row_folderId := Some "archive" |}
  /\ (forall k, k ≠ id -> flows w' !! k = flows Sample.world !! k)
  /\ instances w' = instances Sample.world
  /\ locks w' = locks Sample.world
  /\ (exists fl, outcome (flowService.create Sample.apId "p1" req Sample.world) = Returned fl
                 /\ flow_id fl = id /\ flow_projectId fl = "p1"
                 /\ flow_folderId fl = req_folderId req /\ flow_status fl = None)
  /\ forall q n, outcome (flowService.count "p1" q Sample.world) = Returned n ->
       outcome (flowService.count "p1" q w')
       = Returned (if decide (accepts q (req_folderId req)) then S n else n).
Proof.
  intros req.
  apply (create_adds_one_flow Sample.apId "p1" req Sample.world).
  exact apId_fresh.
Defined.

(** X15 on the sample world. *)
Lemma create_then_delete_restores_flows_witness :
  let req := {| req_displayName := "Second mail"; req_folderId := Some "archive" |} in
  let id := Sample.apId (usedIds Sample.world) in
  let w1 := final (flowService.create Sample.apId "p1" req Sample.world) in
  let w2 := final (flowService.delete "p1" id w1) in
  flows w2 = flows Sample.world
  /\ (forall vid inc, outcome (flowService.getOne "p1" id vid inc w2) = Returned None)
  /\ forall q, outcome (flowService.count "p1" q w2)
               = outcome (flowService.count "p1" q Sample.world).
Proof.
  intros req.
  apply (create_then_delete_restores_flows Sample.apId "p1" req Sample.world).
  exact apId_fresh.
Defined.

(** X16 on the sample world: project p2 has no flow. *)
Lemma list_of_nothing_is_empty_witness :
  outcome (flowService.count "p2" None Sample.world) = Returned 0%nat
  /\ (exists page,
        outcome (flowService.list Sample.firstPage "p2" None 10 None Sample.world)
        = Returned page
        /\ data page = [])
  /\ trace (final (flowService.list Sample.firstPage "p2" None 10 None Sample.world))
     = trace Sample.world ++ [EvRepoQuery].
Proof.
  apply (list_of_nothing_is_empty Sample.firstPage "p2" None 10 None Sample.world).
  - exact firstPage_sound.
  - vm_compute. reflexivity.
Defined.

(** X17 on the sample world: f1 is moved to the folder named archive. *)
Lemma update_result_is_readable_witness :
  let run := flowService.update Sample.apId Sample.operate "p1" "f1"
               (CHANGE_FOLDER (Some "archive")) Sample.world in
  exists fl,
    Some {| flow_id := "f1"; flow_projectId := "p1"; flow_folderId := Some "archive";
            flow_version := Some Sample.publishedVersion;
            flow_status := Some (OtherStatus "ENABLED") |} = Some fl
    /\ flow_id fl = "f1"
    /\ flow_projectId fl = "p1"
    /\ outcome (flowService.getOne "p1" "f1" None false (final run)) = Returned (Some fl)
    /\ outcome (flowService.getOneOrThrow "p1" "f1" (final run)) = Returned fl.
Proof.
  apply (update_result_is_readable Sample.apId Sample.Operation Sample.operate
           "p1" "f1" (CHANGE_FOLDER (Some "archive")) Sample.world).
  vm_compute. reflexivity.
Defined.
